(** * The decoding path of the U-Net ([unet/decoding.py])

    A shallow embedding of [Decoder], [DecodingBlock], [get_upsampling_layer]
    and [get_conv_transpose_layer], and the properties of the decoder that
    follow from it.

    - Python exceptions are an error result ([Result]).
    - Python integers are [Z]; [//] is floor division, which is [Z.div].
    - A call with positional arguments follows Python's arity rule
      ([py_call]): too many or too few arguments raise [TypeError].
    - The tensor library is an interface ([Torch]): the code is written once
      against it, and is run on tensors abstracted to their shapes
      ([ShapeTorch]) where a property is about extents and channel counts. *)

From Stdlib Require Import String DecimalString DecimalPos DecimalZ ZArith List Bool Lia.
Import ListNotations.
Open Scope string_scope.
Open Scope list_scope.
Open Scope Z_scope.

Set Implicit Arguments.

(** ** Exceptions *)

Inductive PyError : Type :=
| TypeError
| AttributeError
| RuntimeError
| IndexError
| NotImplementedError.

Inductive Result (A : Type) : Type :=
| Ok (a : A)
| Raise (e : PyError).

Arguments Ok {A} a.
Arguments Raise {A} e.

Definition bind {A B : Type} (m : Result A) (k : A -> Result B) : Result B :=
  match m with
  | Ok a => k a
  | Raise e => Raise e
  end.

Notation "x <- m ;; k" := (bind m (fun x => k))
  (at level 61, m at next level, right associativity).

Definition succeeds {A : Type} (m : Result A) : bool :=
  match m with Ok _ => true | Raise _ => false end.

(** ** Python values and the call protocol *)

Inductive PyVal : Type :=
| PyInt (z : Z)
| PyStr (s : string).

(** [f'{v}'] *)
Definition py_format (v : PyVal) : string :=
  match v with
  | PyInt z => NilZero.string_of_int (Z.to_int z)
  | PyStr s => s
  end.

(** A function declared with the positional parameters [params] (none of
    which has a default) called with the positional arguments [args]. *)
Definition py_call {A : Type} (params : list string)
    (body : list PyVal -> Result A) (args : list PyVal) : Result A :=
  if Nat.eqb (List.length args) (List.length params) then body args else Raise TypeError.

(** ** Layers *)

(** [torch.nn.ConvTranspose{N}d(in_channels, out_channels, kernel_size, stride)] *)
Record ConvTranspose : Type := {
  ct_spatial_dims : nat;
  ct_in_channels : Z;
  ct_out_channels : Z;
  ct_kernel_size : Z;
  ct_stride : Z
}.

(** What [self.upsample] can hold: a learned transposed convolution, or the
    closure [lambda x: F.interpolate(x, scale_factor=..., mode=...)], which
    owns no parameter. *)
Inductive Upsample : Type :=
| UpConvTranspose (layer : ConvTranspose)
| UpInterpolate (scale_factor : Z) (mode : PyVal).

Definition parameter_free (u : Upsample) : bool :=
  match u with
  | UpConvTranspose _ => false
  | UpInterpolate _ _ => true
  end.

(** The attributes of [torch.nn] named [ConvTranspose{N}d]. *)
Definition nn_conv_transpose_classes : list (string * nat) :=
  [("ConvTranspose1d", 1%nat); ("ConvTranspose2d", 2%nat); ("ConvTranspose3d", 3%nat)].

Fixpoint assoc_string {A : Type} (k : string) (l : list (string * A)) : option A :=
  match l with
  | [] => None
  | (k', v) :: l' => if String.eqb k k' then Some v else assoc_string k l'
  end.

(** [getattr(nn, name)] for those names. *)
Definition getattr_nn (name : string) : Result nat :=
  match assoc_string name nn_conv_transpose_classes with
  | Some n => Ok n
  | None => Raise AttributeError
  end.

(** [conv_class(in_channels, out_channels, kernel_size=..., stride=...)]:
    the constructor allocates a weight of [in_channels] by [out_channels]
    kernels, which raises [RuntimeError] for a negative channel count. *)
Definition conv_class_new (n : nat) (in_channels out_channels : PyVal)
    (kernel_size stride : Z) : Result ConvTranspose :=
  match in_channels, out_channels with
  | PyInt i, PyInt o =>
      if (0 <=? i) && (0 <=? o) then
        Ok {| ct_spatial_dims := n; ct_in_channels := i; ct_out_channels := o;
              ct_kernel_size := kernel_size; ct_stride := stride |}
      else Raise RuntimeError
  | _, _ => Raise TypeError
  end.

(** [def get_upsampling_layer(upsampling_type)] *)
Definition get_upsampling_layer : list PyVal -> Result Upsample :=
  py_call ["upsampling_type"]
    (fun args =>
       match args with
       | [upsampling_type] => Ok (UpInterpolate 2 upsampling_type)
       | _ => Raise TypeError
       end).

(** [def get_conv_transpose_layer(dimensions, in_channels, out_channels)] *)
Definition get_conv_transpose_layer : list PyVal -> Result Upsample :=
  py_call ["dimensions"; "in_channels"; "out_channels"]
    (fun args =>
       match args with
       | [dimensions; in_channels; out_channels] =>
           conv_class <- getattr_nn ("ConvTranspose" ++ py_format dimensions ++ "d")%string ;;
           conv_layer <- conv_class_new conv_class in_channels out_channels 2 2 ;;
           Ok (UpConvTranspose conv_layer)
       | _ => Raise TypeError
       end).

(** ** The convolutional block *)

(** The keyword settings of a convolutional block. *)
Record ConvSettings : Type := {
  s_normalization : option string;
  s_preactivation : bool;
  s_padding : bool;
  s_padding_mode : string;
  s_activation : option string;
  s_dilation : option Z;
  s_kernel_size : Z
}.

(** The keywords of one constructor call: [None] is a keyword that the call
    does not pass. *)
Record ConvKwargs : Type := {
  kw_normalization : option (option string);
  kw_preactivation : option bool;
  kw_padding : option bool;
  kw_padding_mode : option string;
  kw_activation : option (option string);
  kw_dilation : option (option Z);
  kw_kernel_size : option Z
}.

Definition or_default {A : Type} (passed : option A) (default : A) : A :=
  match passed with Some a => a | None => default end.

Definition resolve (defaults : ConvSettings) (kw : ConvKwargs) : ConvSettings :=
  {| s_normalization := or_default (kw_normalization kw) (s_normalization defaults);
     s_preactivation := or_default (kw_preactivation kw) (s_preactivation defaults);
     s_padding := or_default (kw_padding kw) (s_padding defaults);
     s_padding_mode := or_default (kw_padding_mode kw) (s_padding_mode defaults);
     s_activation := or_default (kw_activation kw) (s_activation defaults);
     s_dilation := or_default (kw_dilation kw) (s_dilation defaults);
     s_kernel_size := or_default (kw_kernel_size kw) (s_kernel_size defaults) |}.

(** Modelled from the spec: [ConvolutionalBlock] of [unet/conv.py], which is
    imported by [decoding.py] and is not among the sources.  The spec gives
    its constructor as accepting [(dimensions, in_channels, out_channels,
    normalization, preactivation, padding, padding_mode, activation, dilation,
    kernel_size)] with defaults; a block is the record of the values the
    constructor ends up with. *)
Record ConvolutionalBlock : Type := {
  cb_dimensions : Z;
  cb_in_channels : Z;
  cb_out_channels : Z;
  cb_settings : ConvSettings
}.

(** ** The decoder's objects *)

Record DecodingBlock : Type := {
  residual : bool;
  upsample : Upsample;
  conv1 : ConvolutionalBlock;
  conv2 : ConvolutionalBlock;
  (** the attribute exists only when the block was built with [residual] *)
  conv_residual : option ConvolutionalBlock
}.

Record Decoder : Type := {
  decoding_blocks : list DecodingBlock;
  dilation : option Z
}.

Section Construction.

(** The defaults of [ConvolutionalBlock.__init__]'s keyword parameters:
    its signature is not among the sources. *)
Variable defaults : ConvSettings.

Definition ConvolutionalBlock_init (dimensions in_channels out_channels : Z)
    (kw : ConvKwargs) : ConvolutionalBlock :=
  {| cb_dimensions := dimensions;
     cb_in_channels := in_channels;
     cb_out_channels := out_channels;
     cb_settings := resolve defaults kw |}.

(** The keywords of the two calls of the main path (lines 80-102). *)
Definition main_path_kwargs (normalization : option string) (preactivation padding : bool)
    (padding_mode : string) (activation : option string) (dilation : option Z)
    : ConvKwargs :=
  {| kw_normalization := Some normalization;
     kw_preactivation := Some preactivation;
     kw_padding := Some padding;
     kw_padding_mode := Some padding_mode;
     kw_activation := Some activation;
     kw_dilation := Some dilation;
     kw_kernel_size := None |}.

(** The keywords of the call of the residual path (lines 105-112). *)
Definition residual_path_kwargs : ConvKwargs :=
  {| kw_normalization := Some None;
     kw_preactivation := None;
     kw_padding := None;
     kw_padding_mode := None;
     kw_activation := Some None;
     kw_dilation := None;
     kw_kernel_size := Some 1 |}.

(** [DecodingBlock.__init__] *)
Definition DecodingBlock_init (in_channels_skip_connection dimensions : Z)
    (upsampling_type : string) (normalization : option string)
    (preactivation residual padding : bool) (padding_mode : string)
    (activation : option string) (dilation : option Z) : Result DecodingBlock :=
  upsample <-
    (if String.eqb upsampling_type "conv" then
       let in_channels := 2 * in_channels_skip_connection in
       let out_channels := in_channels in
       get_conv_transpose_layer
         [PyInt dimensions; PyInt in_channels; PyInt out_channels]
     else
       get_upsampling_layer [PyInt dimensions; PyStr upsampling_type]) ;;
  let in_channels_first := in_channels_skip_connection * (1 + 2) in
  let out_channels := in_channels_skip_connection in
  let conv1 :=
    ConvolutionalBlock_init dimensions in_channels_first out_channels
      (main_path_kwargs normalization preactivation padding padding_mode
         activation dilation) in
  let in_channels_second := out_channels in
  let conv2 :=
    ConvolutionalBlock_init dimensions in_channels_second out_channels
      (main_path_kwargs normalization preactivation padding padding_mode
         activation dilation) in
  let conv_residual :=
    if residual then
      Some (ConvolutionalBlock_init dimensions in_channels_first out_channels
              residual_path_kwargs)
    else None in
  Ok {| residual := residual; upsample := upsample; conv1 := conv1;
        conv2 := conv2; conv_residual := conv_residual |}.

(** The state of the loop of [Decoder.__init__]: the module list, the
    running [in_channels_skip_connection] and [self.dilation]. *)
Record InitState : Type := {
  st_blocks : list DecodingBlock;
  st_channels : Z;
  st_dilation : option Z
}.

Section Loop.
Variables (dimensions : Z) (upsampling_type : string)
  (normalization : option string) (preactivation residual padding : bool)
  (padding_mode : string) (activation : option string).

(** One iteration of the body (lines 31-45). *)
Definition init_step (st : InitState) : Result InitState :=
  decoding_block <-
    DecodingBlock_init (st_channels st) dimensions upsampling_type
      normalization preactivation residual padding padding_mode activation
      (st_dilation st) ;;
  Ok {| st_blocks := st_blocks st ++ [decoding_block];
        st_channels := st_channels st / 2;
        st_dilation :=
          match st_dilation st with
          | None => None
          | Some d => Some (d / 2)
          end |}.

(** [for _ in range(n)] *)
Fixpoint init_loop (n : nat) (st : InitState) : Result InitState :=
  match n with
  | O => Ok st
  | S n' => st' <- init_step st ;; init_loop n' st'
  end.

End Loop.

(** [Decoder.__init__] *)
Definition Decoder_init (in_channels_skip_connection dimensions : Z)
    (upsampling_type : string) (num_decoding_blocks : Z)
    (normalization : option string) (preactivation residual padding : bool)
    (padding_mode : string) (activation : option string)
    (initial_dilation : option Z) : Result Decoder :=
  st <- init_loop dimensions upsampling_type normalization preactivation
          residual padding padding_mode activation
          (Z.to_nat num_decoding_blocks)
          {| st_blocks := [];
             st_channels := in_channels_skip_connection;
             st_dilation := initial_dilation |} ;;
  Ok {| decoding_blocks := st_blocks st; dilation := st_dilation st |}.

End Construction.

(** ** The tensor library *)

(** What [decoding.py] uses of [torch], over a type [T] of tensors. *)
Class Torch (T : Type) : Type := {
  (** [x.shape] *)
  tensor_shape : T -> list Z;
  (** [F.pad(x, pad)] *)
  F_pad : T -> list Z -> Result T;
  (** [torch.cat(tensors, dim=dim)] *)
  torch_cat : list T -> Z -> Result T;
  (** [x += y], the elementwise sum stored into [x] *)
  tensor_iadd : T -> T -> Result T;
  (** [F.interpolate(x, scale_factor=scale_factor, mode=mode)] *)
  F_interpolate : T -> Z -> PyVal -> Result T;
  (** [layer(x)] for a transposed convolution *)
  conv_transpose_call : ConvTranspose -> T -> Result T;
  (** [block(x)] for a convolutional block *)
  conv_block_call : ConvolutionalBlock -> T -> Result T
}.

(** *** One-dimensional integer tensors, as [center_crop] builds them
    from shapes *)

(** [a - b]: elementwise, a tensor of one element being broadcast. *)
Definition tensor_sub (a b : list Z) : Result (list Z) :=
  if Nat.eqb (List.length a) (List.length b) then
    Ok (map (fun p => fst p - snd p) (combine a b))
  else
    match a, b with
    | [a0], _ => Ok (map (fun bi => a0 - bi) b)
    | _, [b0] => Ok (map (fun ai => ai - b0) a)
    | _, _ => Raise RuntimeError
    end.

(** [a // k]: on tensors too, [//] rounds towards minus infinity. *)
Definition tensor_floordiv (a : list Z) (k : Z) : list Z :=
  map (fun ai => ai / k) a.

(** [-a] *)
Definition tensor_neg (a : list Z) : list Z := map Z.opp a.

(** [torch.stack((a, b))] of two tensors of one size: a matrix, as its rows. *)
Definition torch_stack (a b : list Z) : list (list Z) := [a; b].

(** [m.t()]: row [j] of the result is column [j] of [m]. *)
Definition tensor_t (m : list (list Z)) : list (list Z) :=
  map (fun j => map (fun row => nth j row 0) m)
      (seq 0 (List.length (hd [] m))).

(** [m.flatten()] *)
Definition tensor_flatten (m : list (list Z)) : list Z := concat m.

(** ** The forward passes *)

Definition CHANNELS_DIMENSION : Z := 1.

Section Forward.

Context {T : Type} `{Torch T}.

(** [DecodingBlock.center_crop] *)
Definition center_crop (skip_connection x : T) : Result T :=
  let skip_shape := tensor_shape skip_connection in
  let x_shape := tensor_shape x in
  crop <- tensor_sub (skipn 2 skip_shape) (skipn 2 x_shape) ;;
  let half_crop := tensor_floordiv crop 2 in
  let pad := tensor_neg (tensor_flatten (tensor_t (torch_stack half_crop half_crop))) in
  F_pad skip_connection pad.

(** [self.upsample(x)] *)
Definition upsample_call (u : Upsample) (x : T) : Result T :=
  match u with
  | UpConvTranspose layer => conv_transpose_call layer x
  | UpInterpolate scale_factor mode => F_interpolate x scale_factor mode
  end.

(** [self.conv_residual] *)
Definition get_conv_residual (self : DecodingBlock) : Result ConvolutionalBlock :=
  match conv_residual self with
  | Some block => Ok block
  | None => Raise AttributeError
  end.

(** [DecodingBlock.forward] *)
Definition DecodingBlock_forward (self : DecodingBlock) (skip_connection x : T)
    : Result T :=
  x <- upsample_call (upsample self) x ;;
  skip_connection <- center_crop skip_connection x ;;
  x <- torch_cat [skip_connection; x] CHANNELS_DIMENSION ;;
  if residual self then
    block <- get_conv_residual self ;;
    connection <- conv_block_call block x ;;
    x <- conv_block_call (conv1 self) x ;;
    x <- conv_block_call (conv2 self) x ;;
    x <- tensor_iadd x connection ;;
    Ok x
  else
    x <- conv_block_call (conv1 self) x ;;
    x <- conv_block_call (conv2 self) x ;;
    Ok x.

(** The loop of [Decoder.forward] over the zipped pairs. *)
Fixpoint forward_loop (zipped : list (T * DecodingBlock)) (x : T) : Result T :=
  match zipped with
  | [] => Ok x
  | (skip_connection, decoding_block) :: rest =>
      x <- DecodingBlock_forward decoding_block skip_connection x ;;
      forward_loop rest x
  end.

(** [Decoder.forward] *)
Definition Decoder_forward (self : Decoder) (skip_connections : list T) (x : T)
    : Result T :=
  let zipped := combine (rev skip_connections) (decoding_blocks self) in
  forward_loop zipped x.

End Forward.

(** ** Tensors abstracted to their shapes

    A tensor is its shape, and each primitive of [torch] is what it does to
    shapes and when it raises, as the library documents it. *)

Fixpoint mapM {A B : Type} (f : A -> Result B) (l : list A) : Result (list B) :=
  match l with
  | [] => Ok []
  | a :: l' => b <- f a ;; bs <- mapM f l' ;; Ok (b :: bs)
  end.

(** The extent of one axis after padding by [left] and [right]; a negative
    amount removes elements, and cannot remove more than there are. *)
Definition pad_axis (size left right : Z) : Result Z :=
  let new_dim := size + left + right in
  if (0 <=? new_dim) && (0 <=? size + Z.min left 0) && (0 <=? size + Z.min right 0)
  then Ok new_dim
  else Raise RuntimeError.

(** [F.pad(input, pad)] with the default constant mode.  The pairs of [pad]
    are (left, right) amounts starting from the LAST axis of [input]: pair
    [i] pads axis [ndim - 1 - i]. *)
Definition pad_shape (input pad : list Z) : Result (list Z) :=
  if Nat.odd (List.length pad) then Raise RuntimeError
  else
    let l_inp := List.length input in
    let l_pad := Nat.div (List.length pad) 2 in
    if Nat.ltb l_inp l_pad then Raise RuntimeError
    else
      let l_diff := (l_inp - l_pad)%nat in
      new_dims <-
        mapM (fun i =>
                let pad_idx := (List.length pad - (i + 1) * 2)%nat in
                pad_axis (nth (l_diff + i) input 0)
                         (nth pad_idx pad 0) (nth (pad_idx + 1) pad 0))
             (seq 0 l_pad) ;;
      Ok (firstn l_diff input ++ new_dims).

(** A [dim] argument, negative values counting from the end. *)
Definition normalize_dim (dim : Z) (ndim : nat) : Result nat :=
  let d := if dim <? 0 then dim + Z.of_nat ndim else dim in
  if (0 <=? d) && (d <? Z.of_nat ndim) then Ok (Z.to_nat d) else Raise IndexError.

(** Two shapes that agree on every axis but [d]. *)
Definition same_except (d : nat) (a b : list Z) : bool :=
  Nat.eqb (List.length a) (List.length b)
  && forallb (fun i => Nat.eqb i d || (nth i a 0 =? nth i b 0))
             (seq 0 (List.length a)).

(** The one-dimensional empty tensor, which [torch.cat] skips. *)
Definition is_legacy_empty (s : list Z) : bool :=
  match s with
  | [0] => true
  | _ => false
  end.

Definition sum_Z (l : list Z) : Z := fold_right Z.add 0 l.

(** [torch.cat(tensors, dim)]: the shapes must agree except along [dim],
    where the extents add up. *)
Definition cat_shape (tensors : list (list Z)) (dim : Z) : Result (list Z) :=
  match tensors with
  | [] => Raise RuntimeError
  | _ =>
      match filter (fun s => negb (is_legacy_empty s)) tensors with
      | [] => Ok [0]
      | t0 :: rest =>
          d <- normalize_dim dim (List.length t0) ;;
          if forallb (same_except d t0) rest then
            Ok (firstn d t0
                  ++ [sum_Z (map (fun s => nth d s 0) (t0 :: rest))]
                  ++ skipn (S d) t0)
          else Raise RuntimeError
      end
  end.

(** [y] can be broadcast to the shape [x]. *)
Definition broadcastable_to (y x : list Z) : bool :=
  Nat.leb (List.length y) (List.length x)
  && forallb (fun p => (fst p =? snd p) || (fst p =? 1))
             (combine (rev y) (rev x)).

(** [x += y]: the result has the shape of [x]. *)
Definition iadd_shape (x y : list Z) : Result (list Z) :=
  if broadcastable_to y x then Ok x else Raise RuntimeError.

(** The interpolation modes and the numbers of spatial axes they accept. *)
Definition interpolation_modes : list (string * list nat) :=
  [("nearest", [1; 2; 3]); ("linear", [1]); ("bilinear", [2]); ("bicubic", [2]);
   ("trilinear", [3]); ("area", [1; 2; 3]); ("nearest-exact", [1; 2; 3])]%nat.

(** [F.interpolate(x, scale_factor, mode)] with an integer scale factor;
    an empty spatial axis raises [RuntimeError]. *)
Definition interpolate_shape (x : list Z) (scale_factor : Z) (mode : PyVal)
    : Result (list Z) :=
  match x, mode with
  | n :: c :: spatial, PyStr m =>
      match assoc_string m interpolation_modes with
      | Some ranks =>
          if existsb (Nat.eqb (List.length spatial)) ranks then
            if forallb (fun e => 0 <? e) spatial then
              Ok (n :: c :: map (fun e => e * scale_factor) spatial)
            else Raise RuntimeError
          else Raise NotImplementedError
      | None => Raise NotImplementedError
      end
  | _, _ => Raise NotImplementedError
  end.

(** A transposed convolution without padding on a feature map with its
    batch axis, the layout [Decoder.forward] works on: the channel count
    must be [in_channels], the layer must have channels, no spatial axis may
    be empty, and each spatial extent [e] becomes
    [(e - 1) * stride + kernel_size].  An input without the batch axis, which
    the layer would take as a single sample, is outside this model and
    raises here. *)
Definition conv_transpose_shape (layer : ConvTranspose) (x : list Z)
    : Result (list Z) :=
  match x with
  | n :: c :: spatial =>
      if Nat.eqb (List.length spatial) (ct_spatial_dims layer)
         && (c =? ct_in_channels layer)
         && (0 <? ct_in_channels layer)
         && (0 <? ct_out_channels layer)
         && forallb (fun e => 0 <? e) spatial
      then Ok (n :: ct_out_channels layer
                 :: map (fun e => (e - 1) * ct_stride layer + ct_kernel_size layer)
                      spatial)
      else Raise RuntimeError
  | _ => Raise RuntimeError
  end.

Section ShapeLevel.

(** What a convolutional block does to the spatial extents, which depends on
    [unet/conv.py]. *)
Variable conv_spatial : ConvolutionalBlock -> list Z -> Result (list Z).

(** Modelled from the spec: the call contract of [ConvolutionalBlock], which
    is not among the sources: [block(tensor)] preserves the batch size and
    changes the channel count from [in_channels] to [out_channels]. *)
Definition conv_block_shape (block : ConvolutionalBlock) (x : list Z)
    : Result (list Z) :=
  match x with
  | n :: c :: spatial =>
      if c =? cb_in_channels block then
        spatial' <- conv_spatial block spatial ;;
        Ok (n :: cb_out_channels block :: spatial')
      else Raise RuntimeError
  | _ => Raise RuntimeError
  end.

Definition ShapeTorch : Torch (list Z) :=
  {| tensor_shape := fun s => s;
     F_pad := pad_shape;
     torch_cat := cat_shape;
     tensor_iadd := iadd_shape;
     F_interpolate := interpolate_shape;
     conv_transpose_call := conv_transpose_shape;
     conv_block_call := conv_block_shape |}.

End ShapeLevel.

(** Convolutions that keep the spatial extents, to run examples on. *)
Definition same_spatial (_ : ConvolutionalBlock) (spatial : list Z)
    : Result (list Z) := Ok spatial.

(** ** The contracts the code is compared with

    These follow the words of the specification, not the code. *)

Section Contracts.

Context {T : Type} `{Torch T}.

(** "Upsample [x]; spatially align [skip_connection] to the upsampled [x]
    via center-crop; concatenate aligned skip connection and upsampled [x]
    along the channel axis (skip first, then [x])." *)
Definition spec_concat (self : DecodingBlock) (skip_connection x : T) : Result T :=
  match upsample_call (upsample self) x with
  | Raise e => Raise e
  | Ok upsampled =>
      match center_crop skip_connection upsampled with
      | Raise e => Raise e
      | Ok aligned => torch_cat [aligned; upsampled] 1
      end
  end.

(** "[conv2(conv1(concat))]" *)
Definition spec_main_path (self : DecodingBlock) (concat : T) : Result T :=
  match conv_block_call (conv1 self) concat with
  | Raise e => Raise e
  | Ok y => conv_block_call (conv2 self) y
  end.

(** "Pairing stage [i] of decoding with skip connection at reverse-index
    [i]": the value of [x] after [k] stages, stage [j] applying block [j] to
    the skip connection that is [j] places from the end of the list. *)
Fixpoint spec_stages (blocks : list DecodingBlock) (skip_connections : list T)
    (x : T) (k : nat) : Result T :=
  match k with
  | O => Ok x
  | S j =>
      match spec_stages blocks skip_connections x j with
      | Raise e => Raise e
      | Ok xj =>
          match nth_error blocks j,
                nth_error skip_connections (List.length skip_connections - 1 - j) with
          | Some block, Some skip_connection =>
              DecodingBlock_forward block skip_connection xj
          | _, _ => Raise IndexError
          end
      end
  end.

End Contracts.

(** "Stage [k]'s dilation equals [d // 2^k] (or [None] propagates as [None])" *)
Definition spec_stage_dilation (initial_dilation : option Z) (k : nat) : option Z :=
  match initial_dilation with
  | None => None
  | Some d => Some (d / 2 ^ Z.of_nat k)
  end.

(** "Stage [k]'s skip-channel parameter equal to [c // 2^k]" *)
Definition spec_stage_channels (c : Z) (k : nat) : Z := c / 2 ^ Z.of_nat k.

(** ** Values to run the code on *)

(** A choice of defaults for [ConvolutionalBlock]. *)
Definition example_defaults : ConvSettings :=
  {| s_normalization := None;
     s_preactivation := false;
     s_padding := false;
     s_padding_mode := "zeros";
     s_activation := Some "ReLU"%string;
     s_dilation := None;
     s_kernel_size := 3 |}.

(** The block that [DecodingBlock.__init__] is expected to build in the
    ["conv"] mode: a transposed convolution from [2 * c] to [2 * c] channels
    with kernel 2 and stride 2, a first block from [3 * c] to [c] channels,
    a second from [c] to [c], and with [residual] a block of kernel size 1
    without normalization and activation. *)
Definition conv_mode_block (defaults : ConvSettings) (c dimensions : Z)
    (normalization : option string) (preactivation residual padding : bool)
    (padding_mode : string) (activation : option string) (dilation : option Z)
    : DecodingBlock :=
  let kw := main_path_kwargs normalization preactivation padding padding_mode
              activation dilation in
  {| residual := residual;
     upsample := UpConvTranspose
                   {| ct_spatial_dims := Z.to_nat dimensions;
                      ct_in_channels := 2 * c;
                      ct_out_channels := 2 * c;
                      ct_kernel_size := 2;
                      ct_stride := 2 |};
     conv1 := ConvolutionalBlock_init defaults dimensions (c * 3) c kw;
     conv2 := ConvolutionalBlock_init defaults dimensions c c kw;
     conv_residual :=
       if residual then
         Some (ConvolutionalBlock_init defaults dimensions (c * 3) c
                 residual_path_kwargs)
       else None |}.

(** The block expected at stage [k] of a decoder built in the ["conv"] mode
    from the skip-channel count [c] and the initial dilation [d]. *)
Definition stage_block (defaults : ConvSettings) (dimensions : Z)
    (normalization : option string) (preactivation residual padding : bool)
    (padding_mode : string) (activation : option string)
    (c : Z) (d : option Z) (k : nat) : DecodingBlock :=
  conv_mode_block defaults (spec_stage_channels c k) dimensions normalization
    preactivation residual padding padding_mode activation
    (spec_stage_dilation d k).

(** Shapes with convolutions that keep the spatial extents. *)
Definition example_torch : Torch (list Z) := ShapeTorch same_spatial.

(** A decoder of two one-dimensional stages, for 8 skip channels. *)
Definition example_decoder : Decoder :=
  {| decoding_blocks :=
       map (stage_block example_defaults 1 None true false true "zeros"
              (Some "ReLU"%string) 8 None)
           [0%nat; 1%nat];
     dilation := None |}.

(** The half crops [crop // 2] of two lists of spatial extents. *)
Definition half_crops (skip_spatial x_spatial : list Z) : list Z :=
  map (fun p => (fst p - snd p) / 2) (combine skip_spatial x_spatial).

(** The crops [skip_shape[2:] - x_shape[2:]] of two lists of spatial extents
    of one length. *)
Definition spatial_crops (skip_spatial x_spatial : list Z) : list Z :=
  map (fun p => fst p - snd p) (combine skip_spatial x_spatial).

(** The extents that [F.pad] leaves when it is given the pad descriptor of
    [center_crop]: axis [i] loses twice the half crop that was computed for
    axis [k - 1 - i]. *)
Definition mirrored_crop (skip_spatial x_spatial : list Z) : list Z :=
  map (fun i =>
         nth i skip_spatial 0
         - 2 * nth (List.length skip_spatial - 1 - i)
                   (half_crops skip_spatial x_spatial) 0)
      (seq 0 (List.length skip_spatial)).

(** The skip connection that fits stage [k] of a decoder for [c] skip
    channels fed with a bottleneck of spatial extents [sp]: [c // 2^k]
    channels and the extents of the bottleneck doubled [k + 1] times. *)
Definition aligned_skip (b c : Z) (sp : list Z) (k : nat) : list Z :=
  b :: c / 2 ^ Z.of_nat k :: map (fun e => 2 ^ Z.of_nat (S k) * e) sp.

(** * Properties *)

(** ** The error monad *)

Lemma bind_Ok_inv {A B : Type} (m : Result A) (k : A -> Result B) (b : B) :
  bind m k = Ok b -> exists a, m = Ok a /\ k a = Ok b.
Proof.
  destruct m as [a | e]; simpl; intros Hk.
  - exists a; split; [reflexivity | exact Hk].
  - discriminate Hk.
Qed.

Lemma bind_Ok {A B : Type} (m : Result A) (k : A -> Result B) (a : A) :
  m = Ok a -> bind m k = k a.
Proof. intros ->; reflexivity. Qed.

Ltac inv_bind H :=
  let a := fresh "v" in
  let Ha := fresh "Hv" in
  apply bind_Ok_inv in H; destruct H as [a [Ha H]].

(** ** Construction *)

Section ConstructionFacts.

Variable defaults : ConvSettings.

(** Called as it is declared, [get_upsampling_layer] returns the closure
    over [F.interpolate] with scale factor 2 and the mode it was given. *)
Lemma get_upsampling_layer_one_argument (upsampling_type : PyVal) :
  get_upsampling_layer [upsampling_type] = Ok (UpInterpolate 2 upsampling_type)
  /\ parameter_free (UpInterpolate 2 upsampling_type) = true.
Proof. split; reflexivity. Qed.

(** With any two positional arguments the call raises. *)
Lemma get_upsampling_layer_two_arguments (a b : PyVal) :
  get_upsampling_layer [a; b] = Raise TypeError.
Proof. reflexivity. Qed.

Lemma conv_class_new_nonneg (n : nat) (in_channels out_channels k s : Z) :
  0 <= in_channels -> 0 <= out_channels ->
  conv_class_new n (PyInt in_channels) (PyInt out_channels) k s
  = Ok {| ct_spatial_dims := n; ct_in_channels := in_channels;
          ct_out_channels := out_channels; ct_kernel_size := k; ct_stride := s |}.
Proof.
  intros Hi Ho. unfold conv_class_new.
  apply Z.leb_le in Hi, Ho. rewrite Hi, Ho. reflexivity.
Qed.

Lemma conv_class_new_negative (n : nat) (in_channels out_channels k s : Z) :
  in_channels < 0 \/ out_channels < 0 ->
  conv_class_new n (PyInt in_channels) (PyInt out_channels) k s
  = Raise RuntimeError.
Proof.
  intros Hneg. unfold conv_class_new.
  destruct (Z.leb_spec 0 in_channels); destruct (Z.leb_spec 0 out_channels);
    try reflexivity.
  lia.
Qed.

Lemma get_conv_transpose_layer_ok (dimensions in_channels out_channels : Z) :
  1 <= dimensions <= 3 -> 0 <= in_channels -> 0 <= out_channels ->
  get_conv_transpose_layer [PyInt dimensions; PyInt in_channels; PyInt out_channels]
  = Ok (UpConvTranspose
          {| ct_spatial_dims := Z.to_nat dimensions;
             ct_in_channels := in_channels;
             ct_out_channels := out_channels;
             ct_kernel_size := 2;
             ct_stride := 2 |}).
Proof.
  intros Hd Hi Ho.
  assert (Hcases : dimensions = 1 \/ dimensions = 2 \/ dimensions = 3) by lia.
  unfold get_conv_transpose_layer, py_call. cbn [List.length Nat.eqb].
  destruct Hcases as [-> | [-> | ->]];
    match goal with
    | |- context [getattr_nn ?name] =>
        let r := eval vm_compute in (getattr_nn name) in
        change (getattr_nn name) with r
    end;
    cbn [bind]; rewrite conv_class_new_nonneg by assumption; reflexivity.
Qed.

Lemma DecodingBlock_init_conv (c dimensions : Z) normalization preactivation
    residual padding padding_mode activation dilation :
  1 <= dimensions <= 3 -> 0 <= c ->
  DecodingBlock_init defaults c dimensions "conv" normalization preactivation
    residual padding padding_mode activation dilation
  = Ok (conv_mode_block defaults c dimensions normalization preactivation residual
          padding padding_mode activation dilation).
Proof.
  intros Hd Hc. unfold DecodingBlock_init.
  change (String.eqb "conv" "conv") with true. cbv iota.
  rewrite get_conv_transpose_layer_ok by (exact Hd || lia).
  reflexivity.
Qed.

(** In any other mode the call of [get_upsampling_layer] raises, and with
    it the constructor. *)
Lemma DecodingBlock_init_not_conv (c dimensions : Z) upsampling_type normalization
    preactivation residual padding padding_mode activation dilation :
  upsampling_type <> "conv" ->
  DecodingBlock_init defaults c dimensions upsampling_type normalization
    preactivation residual padding padding_mode activation dilation
  = Raise TypeError.
Proof.
  intros Hne. unfold DecodingBlock_init.
  destruct (String.eqb_spec upsampling_type "conv") as [Heq | _].
  - contradiction.
  - rewrite get_upsampling_layer_two_arguments. reflexivity.
Qed.

(** Construction succeeds in no other mode. *)
Lemma DecodingBlock_init_Ok_conv (c dimensions : Z) upsampling_type normalization
    preactivation residual padding padding_mode activation dilation block :
  DecodingBlock_init defaults c dimensions upsampling_type normalization
    preactivation residual padding padding_mode activation dilation = Ok block ->
  upsampling_type = "conv".
Proof.
  destruct (String.eqb_spec upsampling_type "conv") as [Heq | Hne].
  - intros _. exact Heq.
  - rewrite DecodingBlock_init_not_conv by exact Hne. discriminate.
Qed.


End ConstructionFacts.

(** ** Halving *)

Lemma pow2_pos (k : nat) : 0 < 2 ^ Z.of_nat k.
Proof. apply Z.pow_pos_nonneg; lia. Qed.

Lemma pow2_succ (k : nat) : 2 ^ Z.of_nat (S k) = 2 * 2 ^ Z.of_nat k.
Proof. rewrite Nat2Z.inj_succ, Z.pow_succ_r by lia. reflexivity. Qed.

Lemma halve_then_stage (a : Z) (k : nat) :
  a / 2 / 2 ^ Z.of_nat k = a / 2 ^ Z.of_nat (S k).
Proof.
  rewrite pow2_succ, Z.div_div; [reflexivity | lia | apply pow2_pos].
Qed.

Lemma spec_stage_channels_0 (c : Z) : spec_stage_channels c 0 = c.
Proof. unfold spec_stage_channels. simpl. apply Z.div_1_r. Qed.

Lemma spec_stage_channels_S (c : Z) (k : nat) :
  spec_stage_channels (c / 2) k = spec_stage_channels c (S k).
Proof. apply halve_then_stage. Qed.

Lemma spec_stage_dilation_0 (d : option Z) : spec_stage_dilation d 0 = d.
Proof.
  destruct d as [d |]; simpl; [| reflexivity].
  rewrite Z.div_1_r. reflexivity.
Qed.

Lemma spec_stage_dilation_S (d : option Z) (k : nat) :
  spec_stage_dilation (match d with None => None | Some d' => Some (d' / 2) end) k
  = spec_stage_dilation d (S k).
Proof.
  destruct d as [d |]; [| reflexivity].
  unfold spec_stage_dilation. rewrite halve_then_stage. reflexivity.
Qed.

(** Once a stage has dilation 0, so has every later stage. *)
Lemma spec_stage_dilation_zero (d : option Z) (k j : nat) :
  (k <= j)%nat ->
  spec_stage_dilation d k = Some 0 -> spec_stage_dilation d j = Some 0.
Proof.
  intros Hkj. destruct d as [d |]; simpl; [| discriminate].
  intros Hk. injection Hk as Hk. f_equal.
  replace (Z.of_nat j) with (Z.of_nat k + Z.of_nat (j - k)) by lia.
  rewrite Z.pow_add_r by lia.
  rewrite <- Z.div_div; [| pose proof (pow2_pos k); lia | apply pow2_pos].
  rewrite Hk. apply Z.div_0_l. pose proof (pow2_pos (j - k)); lia.
Qed.

(** With [2 ^ (n - 1)] dividing [c], each of the [n] halvings is exact. *)
Lemma exact_halving (n c : Z) (k : nat) :
  Z.of_nat k < n -> (2 ^ (n - 1) | c) ->
  2 ^ Z.of_nat k * spec_stage_channels c k = c.
Proof.
  intros Hk [q Hq]. unfold spec_stage_channels.
  assert (Hsplit : 2 ^ (n - 1) = 2 ^ (n - 1 - Z.of_nat k) * 2 ^ Z.of_nat k).
  { rewrite <- Z.pow_add_r by lia. f_equal. lia. }
  rewrite Hq, Hsplit, Z.mul_assoc, Z.div_mul by (pose proof (pow2_pos k); lia).
  ring.
Qed.

(** ** The loop of [Decoder.__init__] *)

Section DecoderInit.

Variables (defaults : ConvSettings) (dimensions : Z)
  (normalization : option string) (preactivation residual padding : bool)
  (padding_mode : string) (activation : option string).

Hypothesis dimensions_ok : 1 <= dimensions <= 3.

Local Notation "'stage'" := (stage_block defaults dimensions normalization
  preactivation residual padding padding_mode activation).

Lemma init_step_conv (st : InitState) :
  0 <= st_channels st ->
  init_step defaults dimensions "conv" normalization preactivation residual
    padding padding_mode activation st
  = Ok {| st_blocks := st_blocks st ++ [stage (st_channels st) (st_dilation st) 0];
          st_channels := st_channels st / 2;
          st_dilation := match st_dilation st with
                         | None => None
                         | Some d => Some (d / 2)
                         end |}.
Proof.
  intros Hc.
  unfold init_step. rewrite DecodingBlock_init_conv by assumption.
  unfold stage_block. rewrite spec_stage_channels_0, spec_stage_dilation_0.
  reflexivity.
Qed.

Lemma init_loop_conv (n : nat) : forall st : InitState,
  0 <= st_channels st ->
  init_loop defaults dimensions "conv" normalization preactivation residual
    padding padding_mode activation n st
  = Ok {| st_blocks := st_blocks st
                       ++ map (stage (st_channels st) (st_dilation st)) (seq 0 n);
          st_channels := spec_stage_channels (st_channels st) n;
          st_dilation := spec_stage_dilation (st_dilation st) n |}.
Proof.
  induction n as [| n IH]; intros st Hc.
  - simpl. rewrite app_nil_r, spec_stage_channels_0, spec_stage_dilation_0.
    destruct st; reflexivity.
  - cbn [init_loop]. rewrite init_step_conv by exact Hc. cbn [bind].
    rewrite IH by (cbn [st_channels]; apply Z.div_pos; lia).
    cbn [st_blocks st_channels st_dilation].
    rewrite spec_stage_channels_S, spec_stage_dilation_S.
    rewrite <- app_assoc. do 3 f_equal.
    cbn [seq map app]. f_equal.
    rewrite <- seq_shift, map_map.
    apply map_ext. intros k. unfold stage_block.
    rewrite spec_stage_channels_S, spec_stage_dilation_S. reflexivity.
Qed.

Lemma Decoder_init_conv (c n : Z) (d : option Z) :
  0 <= c ->
  Decoder_init defaults c dimensions "conv" n normalization preactivation
    residual padding padding_mode activation d
  = Ok {| decoding_blocks := map (stage c d) (seq 0 (Z.to_nat n));
          dilation := spec_stage_dilation d (Z.to_nat n) |}.
Proof.
  intros Hc. unfold Decoder_init. rewrite init_loop_conv by exact Hc.
  reflexivity.
Qed.


End DecoderInit.

(** ** Construction: the claims *)

(** C2 (the code departs from it).  In every upsampling mode other than
    ["conv"], [DecodingBlock.__init__] calls the one-parameter
    [get_upsampling_layer] with two positional arguments, so construction
    raises [TypeError] and no interpolating block is ever built; called with
    the mode alone, [get_upsampling_layer] does return the parameter-free
    interpolation with scale factor 2 in that mode. *)
Theorem DecodingBlock_init_interpolation_raises (defaults : ConvSettings)
    (c dimensions : Z) (upsampling_type : string) (normalization : option string)
    (preactivation residual padding : bool) (padding_mode : string)
    (activation : option string) (dilation : option Z) :
  upsampling_type <> "conv" ->
  DecodingBlock_init defaults c dimensions upsampling_type normalization
    preactivation residual padding padding_mode activation dilation
  = Raise TypeError
  /\ get_upsampling_layer [PyInt dimensions; PyStr upsampling_type]
     = Raise TypeError
  /\ exists layer : Upsample,
       get_upsampling_layer [PyStr upsampling_type] = Ok layer
       /\ layer = UpInterpolate 2 (PyStr upsampling_type)
       /\ parameter_free layer = true.
Proof.
  intros Hne. split; [| split].
  - apply DecodingBlock_init_not_conv. exact Hne.
  - apply get_upsampling_layer_two_arguments.
  - eexists. split; [apply get_upsampling_layer_one_argument |].
    split; reflexivity.
Qed.

Lemma DecodingBlock_init_interpolation_raises_witness :
  "nearest" <> "conv"
  /\ DecodingBlock_init example_defaults 4 2 "nearest" None true false false
       "zeros" (Some "ReLU"%string) None = Raise TypeError.
Proof.
  assert (Hne : "nearest" <> "conv") by discriminate.
  split; [exact Hne |].
  exact (proj1 (DecodingBlock_init_interpolation_raises example_defaults 4 2
                  None true false false "zeros" (Some "ReLU"%string) None Hne)).
Defined.

(** What a loop that has run to its end has built, in any mode: block [k]
    is the block [DecodingBlock.__init__] returns for the running channel
    count and dilation halved [k] times. *)
Lemma init_loop_Ok (defaults : ConvSettings) (dimensions : Z)
    (upsampling_type : string) (normalization : option string)
    (preactivation residual padding : bool) (padding_mode : string)
    (activation : option string) (n : nat) :
  forall st st' : InitState,
  init_loop defaults dimensions upsampling_type normalization preactivation
    residual padding padding_mode activation n st = Ok st' ->
  st_channels st' = spec_stage_channels (st_channels st) n
  /\ st_dilation st' = spec_stage_dilation (st_dilation st) n
  /\ exists built : list DecodingBlock,
       st_blocks st' = st_blocks st ++ built
       /\ List.length built = n
       /\ forall k : nat, (k < n)%nat ->
            exists block : DecodingBlock,
              nth_error built k = Some block
              /\ DecodingBlock_init defaults
                   (spec_stage_channels (st_channels st) k) dimensions
                   upsampling_type normalization preactivation residual padding
                   padding_mode activation
                   (spec_stage_dilation (st_dilation st) k) = Ok block.
Proof.
  induction n as [| n IH]; intros st st' Hloop.
  - cbn [init_loop] in Hloop. injection Hloop as <-.
    rewrite spec_stage_channels_0, spec_stage_dilation_0.
    split; [reflexivity |]. split; [reflexivity |].
    exists []. rewrite app_nil_r. split; [reflexivity |]. split; [reflexivity |].
    intros k Hk. lia.
  - cbn [init_loop] in Hloop. inv_bind Hloop. rename v into st1.
    unfold init_step in Hv. inv_bind Hv. rename v into block0.
    injection Hv as <-.
    apply IH in Hloop.
    destruct Hloop as [Hch [Hdil [built [Hblocks [Hlen Hnth]]]]].
    cbn [st_blocks st_channels st_dilation] in Hch, Hdil, Hblocks, Hnth.
    rewrite spec_stage_channels_S in Hch. rewrite spec_stage_dilation_S in Hdil.
    split; [exact Hch |]. split; [exact Hdil |].
    exists (block0 :: built).
    split; [rewrite Hblocks, <- app_assoc; reflexivity |].
    split; [cbn [List.length]; rewrite Hlen; reflexivity |].
    intros k Hk. destruct k as [| k].
    + exists block0. split; [reflexivity |].
      rewrite spec_stage_channels_0, spec_stage_dilation_0. exact Hv0.
    + destruct (Hnth k) as [block [Hblock Hinit]]; [lia |].
      exists block. split; [exact Hblock |].
      rewrite spec_stage_channels_S, spec_stage_dilation_S in Hinit. exact Hinit.
Qed.

(** The same for [Decoder.__init__]. *)
Lemma Decoder_init_Ok (defaults : ConvSettings) (c dimensions : Z)
    (upsampling_type : string) (n : Z) (normalization : option string)
    (preactivation residual padding : bool) (padding_mode : string)
    (activation : option string) (d : option Z) (decoder : Decoder) :
  Decoder_init defaults c dimensions upsampling_type n normalization
    preactivation residual padding padding_mode activation d = Ok decoder ->
  dilation decoder = spec_stage_dilation d (Z.to_nat n)
  /\ List.length (decoding_blocks decoder) = Z.to_nat n
  /\ forall k : nat, (k < Z.to_nat n)%nat ->
       exists block : DecodingBlock,
         nth_error (decoding_blocks decoder) k = Some block
         /\ DecodingBlock_init defaults (spec_stage_channels c k) dimensions
              upsampling_type normalization preactivation residual padding
              padding_mode activation (spec_stage_dilation d k) = Ok block.
Proof.
  unfold Decoder_init. intros Hinit. inv_bind Hinit. injection Hinit as <-.
  apply init_loop_Ok in Hv.
  destruct Hv as [_ [Hdil [built [Hblocks [Hlen Hnth]]]]].
  cbn [st_blocks st_channels st_dilation app] in Hdil, Hblocks, Hnth.
  cbn [decoding_blocks dilation]. rewrite Hblocks.
  split; [exact Hdil |]. split; [exact Hlen | exact Hnth].
Qed.

(** The dilation a constructed block hands to its two convolutional
    blocks. *)
Lemma DecodingBlock_init_dilation (defaults : ConvSettings) (c dimensions : Z)
    (upsampling_type : string) (normalization : option string)
    (preactivation residual padding : bool) (padding_mode : string)
    (activation : option string) (dilation : option Z) (block : DecodingBlock) :
  DecodingBlock_init defaults c dimensions upsampling_type normalization
    preactivation residual padding padding_mode activation dilation = Ok block ->
  s_dilation (cb_settings (conv1 block)) = dilation
  /\ s_dilation (cb_settings (conv2 block)) = dilation.
Proof.
  unfold DecodingBlock_init. intros Hinit.
  inv_bind Hinit. injection Hinit as <-. split; reflexivity.
Qed.

Lemma mapM_map {A B C : Type} (f : B -> Result C) (g : A -> B) (l : list A) :
  mapM f (map g l) = mapM (fun a => f (g a)) l.
Proof.
  induction l as [| a l IH]; [reflexivity |].
  cbn [map mapM]. rewrite IH. reflexivity.
Qed.

Lemma mapM_pointwise {A B : Type} (f g : A -> Result B) (l : list A) :
  (forall a, f a = g a) -> mapM f l = mapM g l.
Proof.
  intros Hfg. induction l as [| a l IH]; [reflexivity |].
  cbn [mapM]. rewrite Hfg, IH. reflexivity.
Qed.

(** The loop of [Decoder.__init__], stage by stage and in every mode: stage
    [k] calls [DecodingBlock.__init__] with the channel count and the
    dilation halved [k] times, and the first call that raises ends the
    construction with its exception. *)
Lemma init_loop_stages (defaults : ConvSettings) (dimensions : Z)
    (upsampling_type : string) (normalization : option string)
    (preactivation residual padding : bool) (padding_mode : string)
    (activation : option string) (n : nat) :
  forall st : InitState,
  init_loop defaults dimensions upsampling_type normalization preactivation
    residual padding padding_mode activation n st
  = (built <- mapM (fun k =>
                      DecodingBlock_init defaults
                        (spec_stage_channels (st_channels st) k) dimensions
                        upsampling_type normalization preactivation residual
                        padding padding_mode activation
                        (spec_stage_dilation (st_dilation st) k))
                   (seq 0 n) ;;
     Ok {| st_blocks := st_blocks st ++ built;
           st_channels := spec_stage_channels (st_channels st) n;
           st_dilation := spec_stage_dilation (st_dilation st) n |}).
Proof.
  induction n as [| n IH]; intros st.
  - cbn [init_loop seq mapM bind].
    rewrite spec_stage_channels_0, spec_stage_dilation_0, app_nil_r.
    destruct st; reflexivity.
  - cbn [init_loop seq mapM]. unfold init_step.
    rewrite spec_stage_channels_0, spec_stage_dilation_0.
    destruct (DecodingBlock_init defaults (st_channels st) dimensions
                upsampling_type normalization preactivation residual padding
                padding_mode activation (st_dilation st)) as [block | e];
      [| reflexivity].
    cbn [bind]. rewrite IH. cbn [st_blocks st_channels st_dilation].
    rewrite <- seq_shift, mapM_map.
    rewrite (@mapM_pointwise _ _ _
               (fun k =>
                  DecodingBlock_init defaults
                    (spec_stage_channels (st_channels st) (S k)) dimensions
                    upsampling_type normalization preactivation residual
                    padding padding_mode activation
                    (spec_stage_dilation (st_dilation st) (S k))))
      by (intros k; rewrite spec_stage_channels_S, spec_stage_dilation_S;
          reflexivity).
    destruct (mapM _ (seq 0 n)) as [built | e]; [| reflexivity].
    cbn [bind].
    rewrite spec_stage_channels_S, spec_stage_dilation_S, <- app_assoc.
    reflexivity.
Qed.

Lemma Decoder_init_stages (defaults : ConvSettings) (c dimensions : Z)
    (upsampling_type : string) (n : Z) (normalization : option string)
    (preactivation residual padding : bool) (padding_mode : string)
    (activation : option string) (d : option Z) :
  Decoder_init defaults c dimensions upsampling_type n normalization
    preactivation residual padding padding_mode activation d
  = (built <- mapM (fun k =>
                      DecodingBlock_init defaults (spec_stage_channels c k)
                        dimensions upsampling_type normalization preactivation
                        residual padding padding_mode activation
                        (spec_stage_dilation d k))
                   (seq 0 (Z.to_nat n)) ;;
     Ok {| decoding_blocks := built;
           dilation := spec_stage_dilation d (Z.to_nat n) |}).
Proof.
  unfold Decoder_init. rewrite init_loop_stages.
  cbn [st_blocks st_channels st_dilation app].
  destruct (mapM _ (seq 0 (Z.to_nat n))) as [built | e]; reflexivity.
Qed.




(** C6.  In every mode and for every channel count, [Decoder.__init__]
    with the initial dilation [d] calls [DecodingBlock.__init__] at stage
    [k] with the dilation [d // 2^k], or with [None] at every stage when [d]
    is [None]: the construction is the sequence of these calls, each made
    once the earlier ones have returned.  Whenever it returns a decoder, the
    block of stage [k] is the one built with that dilation, and both its
    convolutional blocks hold it; the decoder keeps the value left after the
    last stage; and once a stage has dilation 0, every later stage is built
    with 0 as well, without clamping. *)
Theorem Decoder_init_stage_dilation (defaults : ConvSettings)
    (c dimensions : Z) (upsampling_type : string) (n : Z)
    (normalization : option string) (preactivation residual padding : bool)
    (padding_mode : string) (activation : option string) (d : option Z) :
  Decoder_init defaults c dimensions upsampling_type n normalization
    preactivation residual padding padding_mode activation d
  = (built <- mapM (fun k =>
                      DecodingBlock_init defaults (spec_stage_channels c k)
                        dimensions upsampling_type normalization preactivation
                        residual padding padding_mode activation
                        (match d with
                         | None => None
                         | Some d' => Some (d' / 2 ^ Z.of_nat k)
                         end))
                   (seq 0 (Z.to_nat n)) ;;
     Ok {| decoding_blocks := built;
           dilation := match d with
                       | None => None
                       | Some d' => Some (d' / 2 ^ Z.of_nat (Z.to_nat n))
                       end |})
  /\ forall decoder : Decoder,
       Decoder_init defaults c dimensions upsampling_type n normalization
         preactivation residual padding padding_mode activation d = Ok decoder ->
       dilation decoder = spec_stage_dilation d (Z.to_nat n)
       /\ (forall k : nat, Z.of_nat k < n ->
             exists block : DecodingBlock,
               nth_error (decoding_blocks decoder) k = Some block
               /\ DecodingBlock_init defaults (spec_stage_channels c k)
                    dimensions upsampling_type normalization preactivation
                    residual padding padding_mode activation
                    (spec_stage_dilation d k) = Ok block
               /\ s_dilation (cb_settings (conv1 block)) = spec_stage_dilation d k
               /\ s_dilation (cb_settings (conv2 block)) = spec_stage_dilation d k)
       /\ (forall k j : nat, (k <= j)%nat -> Z.of_nat j < n ->
             spec_stage_dilation d k = Some 0 ->
             exists block : DecodingBlock,
               nth_error (decoding_blocks decoder) j = Some block
               /\ s_dilation (cb_settings (conv1 block)) = Some 0
               /\ s_dilation (cb_settings (conv2 block)) = Some 0).
Proof.
  split; [apply Decoder_init_stages |].
  intros decoder Hinit.
  apply Decoder_init_Ok in Hinit. destruct Hinit as [Hdil [_ Hnth]].
  split; [exact Hdil |]. split.
  - intros k Hk. destruct (Hnth k) as [block [Hblock Hbuilt]]; [lia |].
    exists block. split; [exact Hblock |]. split; [exact Hbuilt |].
    apply DecodingBlock_init_dilation in Hbuilt. exact Hbuilt.
  - intros k j Hkj Hj Hzero.
    destruct (Hnth j) as [block [Hblock Hbuilt]]; [lia |].
    exists block. split; [exact Hblock |].
    apply DecodingBlock_init_dilation in Hbuilt. destruct Hbuilt as [H1 H2].
    rewrite H1, H2. split; exact (spec_stage_dilation_zero d Hkj Hzero).
Qed.

Lemma Decoder_init_stage_dilation_witness :
  exists decoder : Decoder,
    Decoder_init example_defaults 64 3 "conv" 4 None true true false "zeros"
      (Some "ReLU"%string) (Some 5) = Ok decoder
    /\ dilation decoder = Some 0
    /\ forall k j : nat, (k <= j)%nat -> Z.of_nat j < 4 ->
         spec_stage_dilation (Some 5) k = Some 0 ->
         exists block : DecodingBlock,
           nth_error (decoding_blocks decoder) j = Some block
           /\ s_dilation (cb_settings (conv1 block)) = Some 0
           /\ s_dilation (cb_settings (conv2 block)) = Some 0.
Proof.
  eexists. split; [reflexivity |].
  split.
  - exact (proj1 (proj2 (Decoder_init_stage_dilation example_defaults 64 3
                           "conv" 4 None true true false "zeros"
                           (Some "ReLU"%string) (Some 5)) _ eq_refl)).
  - exact (proj2 (proj2 (proj2 (Decoder_init_stage_dilation example_defaults
                                  64 3 "conv" 4 None true true false "zeros"
                                  (Some "ReLU"%string) (Some 5)) _ eq_refl))).
Defined.

(** C10.  A block built with [residual=True] gets its residual-path block
    from a call that passes only the kernel size 1, no normalization and no
    activation: its preactivation, padding, padding mode and dilation are
    the defaults of [ConvolutionalBlock], whatever the decoding block itself
    was given, while the main path is built with the block's own values. *)
Theorem residual_block_uses_defaults (defaults : ConvSettings)
    (c dimensions : Z) (upsampling_type : string) (normalization : option string)
    (preactivation padding : bool) (padding_mode : string)
    (activation : option string) (dilation : option Z) (block : DecodingBlock) :
  DecodingBlock_init defaults c dimensions upsampling_type normalization
    preactivation true padding padding_mode activation dilation = Ok block ->
  exists shortcut : ConvolutionalBlock,
    conv_residual block = Some shortcut
    /\ shortcut
       = ConvolutionalBlock_init defaults dimensions (c * 3) c
           {| kw_normalization := Some None;
              kw_preactivation := None;
              kw_padding := None;
              kw_padding_mode := None;
              kw_activation := Some None;
              kw_dilation := None;
              kw_kernel_size := Some 1 |}
    /\ s_kernel_size (cb_settings shortcut) = 1
    /\ s_normalization (cb_settings shortcut) = None
    /\ s_activation (cb_settings shortcut) = None
    /\ s_preactivation (cb_settings shortcut) = s_preactivation defaults
    /\ s_padding (cb_settings shortcut) = s_padding defaults
    /\ s_padding_mode (cb_settings shortcut) = s_padding_mode defaults
    /\ s_dilation (cb_settings shortcut) = s_dilation defaults
    /\ s_preactivation (cb_settings (conv1 block)) = preactivation
    /\ s_padding (cb_settings (conv1 block)) = padding
    /\ s_padding_mode (cb_settings (conv1 block)) = padding_mode
    /\ s_dilation (cb_settings (conv1 block)) = dilation.
Proof.
  unfold DecodingBlock_init. intros Hinit.
  inv_bind Hinit. injection Hinit as <-.
  eexists. split; [reflexivity |].
  repeat split.
Qed.

Lemma residual_block_uses_defaults_witness :
  exists block shortcut : ConvolutionalBlock,
    block = conv1 (conv_mode_block example_defaults 16 3 None true true true
                     "reflect" (Some "PReLU"%string) (Some 2))
    /\ conv_residual (conv_mode_block example_defaults 16 3 None true true true
                        "reflect" (Some "PReLU"%string) (Some 2)) = Some shortcut
    /\ cb_settings block
       = {| s_normalization := None; s_preactivation := true; s_padding := true;
            s_padding_mode := "reflect"; s_activation := Some "PReLU"%string;
            s_dilation := Some 2; s_kernel_size := 3 |}
    /\ cb_settings shortcut
       = {| s_normalization := None; s_preactivation := false; s_padding := false;
            s_padding_mode := "zeros"; s_activation := None;
            s_dilation := None; s_kernel_size := 1 |}.
Proof.
  assert (Hinit : DecodingBlock_init example_defaults 16 3 "conv" None true true
                    true "reflect" (Some "PReLU"%string) (Some 2)
                  = Ok (conv_mode_block example_defaults 16 3 None true true true
                          "reflect" (Some "PReLU"%string) (Some 2)))
    by reflexivity.
  destruct (residual_block_uses_defaults _ _ _ _ _ _ _ _ _ _ Hinit)
    as [shortcut [Hsome [Heq _]]].
  eexists. exists shortcut.
  split; [reflexivity |]. split; [exact Hsome |].
  split; [reflexivity |]. rewrite Heq. reflexivity.
Defined.

(** ** [Decoder.forward] *)

Lemma nth_error_combine {A B : Type} (l : list A) (l' : list B) (k : nat) :
  nth_error (combine l l') k
  = match nth_error l k, nth_error l' k with
    | Some a, Some b => Some (a, b)
    | _, _ => None
    end.
Proof.
  revert l' k. induction l as [| a l IH]; intros l' k.
  - destruct k; reflexivity.
  - destruct l' as [| b l'].
    + destruct k; simpl; [reflexivity |]. destruct (nth_error l k); reflexivity.
    + destruct k; simpl; [reflexivity | apply IH].
Qed.

Lemma firstn_snoc {A : Type} (l : list A) (k : nat) (a : A) :
  nth_error l k = Some a -> firstn (S k) l = firstn k l ++ [a].
Proof.
  revert k. induction l as [| b l IH]; intros k Hk.
  - destruct k; discriminate Hk.
  - destruct k as [| k].
    + injection Hk as ->. reflexivity.
    + cbn [firstn app]. f_equal. apply IH. exact Hk.
Qed.

Section DecoderForward.

Context {T : Type} `{Torch T}.

Lemma forward_loop_app (l1 l2 : list (T * DecodingBlock)) (x : T) :
  forward_loop (l1 ++ l2) x = bind (forward_loop l1 x) (forward_loop l2).
Proof.
  revert x. induction l1 as [| [s b] l1 IH]; intros x; simpl.
  - reflexivity.
  - destruct (DecodingBlock_forward b s x) as [x' | e]; simpl; [apply IH | reflexivity].
Qed.

(** The pair that [zip] yields at position [k]. *)
Lemma zipped_nth (blocks : list DecodingBlock) (skips : list T) (k : nat) :
  (k < Nat.min (List.length skips) (List.length blocks))%nat ->
  exists block skip,
    nth_error blocks k = Some block
    /\ nth_error skips (List.length skips - 1 - k) = Some skip
    /\ nth_error (combine (rev skips) blocks) k = Some (skip, block).
Proof.
  intros Hk.
  destruct (nth_error blocks k) as [block |] eqn:Hb;
    [| apply nth_error_None in Hb; lia].
  destruct (nth_error skips (List.length skips - 1 - k)) as [skip |] eqn:Hs;
    [| apply nth_error_None in Hs; lia].
  exists block, skip. split; [reflexivity |]. split; [reflexivity |].
  rewrite nth_error_combine, nth_error_rev, Hb.
  destruct (Nat.ltb_spec k (List.length skips)); [| lia].
  replace (List.length skips - S k)%nat with (List.length skips - 1 - k)%nat by lia.
  rewrite Hs. reflexivity.
Qed.

(** The first [k] pairs run the first [k] stages. *)
Lemma forward_loop_prefix (blocks : list DecodingBlock) (skips : list T) (x : T)
    (k : nat) :
  (k <= Nat.min (List.length skips) (List.length blocks))%nat ->
  forward_loop (firstn k (combine (rev skips) blocks)) x
  = spec_stages blocks skips x k.
Proof.
  induction k as [| k IH]; intros Hk.
  - reflexivity.
  - destruct (@zipped_nth blocks skips k) as [block [skip [Hb [Hs Hz]]]]; [lia |].
    rewrite (firstn_snoc _ _ Hz), forward_loop_app, IH by lia.
    cbn [spec_stages]. rewrite Hb, Hs.
    destruct (spec_stages blocks skips x k) as [xk | e]; simpl; [| reflexivity].
    destruct (DecodingBlock_forward block skip xk); reflexivity.
Qed.

(** [Decoder.forward] runs as many stages as the shorter of the two
    sequences has elements. *)
Lemma Decoder_forward_stages (self : Decoder) (skips : list T) (x : T) :
  Decoder_forward self skips x
  = spec_stages (decoding_blocks self) skips x
      (Nat.min (List.length skips) (List.length (decoding_blocks self))).
Proof.
  unfold Decoder_forward.
  rewrite <- forward_loop_prefix by lia.
  rewrite <- (length_rev skips), <- length_combine, firstn_all. reflexivity.
Qed.

(** An error of the staged computation is the error of one of its stages. *)
Lemma spec_stages_Raise (blocks : list DecodingBlock) (skips : list T) (x : T)
    (m : nat) (e : PyError) :
  (m <= Nat.min (List.length skips) (List.length blocks))%nat ->
  spec_stages blocks skips x m = Raise e ->
  exists (k : nat) (block : DecodingBlock) (skip xk : T),
    (k < m)%nat
    /\ nth_error blocks k = Some block
    /\ nth_error skips (List.length skips - 1 - k) = Some skip
    /\ spec_stages blocks skips x k = Ok xk
    /\ DecodingBlock_forward block skip xk = Raise e.
Proof.
  induction m as [| m IH]; intros Hm Hraise.
  - discriminate Hraise.
  - cbn [spec_stages] in Hraise.
    destruct (spec_stages blocks skips x m) as [xm | e'] eqn:Hprev.
    + destruct (@zipped_nth blocks skips m) as [block [skip [Hb [Hs _]]]]; [lia |].
      rewrite Hb, Hs in Hraise.
      exists m, block, skip, xm. repeat split; try assumption. lia.
    + injection Hraise as ->.
      destruct IH as [k [block [skip [xk [Hk Hrest]]]]]; [lia | reflexivity |].
      exists k, block, skip, xk. split; [lia | exact Hrest].
Qed.

End DecoderForward.

(** C3.  With as many skip connections as decoding blocks, [Decoder.forward]
    applies every block once: the zipped sequence has one pair per block,
    the pair at position [k] holds block [k] and the skip connection at
    index [length - 1 - k] (the last skip connection goes to the first
    block), each stage takes the result of the stage before as its [x], and
    the result of the last stage is returned. *)
Theorem Decoder_forward_reverse_pairing {T : Type} `{Torch T} (self : Decoder)
    (skip_connections : list T) (x : T) :
  List.length skip_connections = List.length (decoding_blocks self) ->
  Decoder_forward self skip_connections x
  = spec_stages (decoding_blocks self) skip_connections x
      (List.length (decoding_blocks self))
  /\ List.length (combine (rev skip_connections) (decoding_blocks self))
     = List.length (decoding_blocks self)
  /\ forall k : nat, (k < List.length (decoding_blocks self))%nat ->
       exists (block : DecodingBlock) (skip : T),
         nth_error (decoding_blocks self) k = Some block
         /\ nth_error skip_connections (List.length skip_connections - 1 - k)
            = Some skip
         /\ nth_error (combine (rev skip_connections) (decoding_blocks self)) k
            = Some (skip, block).
Proof.
  intros Hlen. split; [| split].
  - rewrite Decoder_forward_stages, Hlen, Nat.min_id. reflexivity.
  - rewrite length_combine, length_rev, Hlen. apply Nat.min_id.
  - intros k Hk. apply zipped_nth. lia.
Qed.

Lemma Decoder_forward_reverse_pairing_witness :
  @Decoder_forward _ example_torch example_decoder
    [[1; 4; 16]; [1; 8; 8]] [1; 16; 4] = Ok [1; 4; 16].
Proof.
  rewrite (proj1 (@Decoder_forward_reverse_pairing _ example_torch
                    example_decoder [[1; 4; 16]; [1; 8; 8]] [1; 16; 4] eq_refl)).
  reflexivity.
Defined.

(** C7.  With a number of skip connections that differs from the number of
    decoding blocks, [Decoder.forward] runs the stages of the shorter of the
    two sequences and returns the result of the last of them; an exception
    can only come out of a decoding block applied to one of those pairs. *)
Theorem Decoder_forward_truncates {T : Type} `{Torch T} (self : Decoder)
    (skip_connections : list T) (x : T) :
  List.length skip_connections <> List.length (decoding_blocks self) ->
  Decoder_forward self skip_connections x
  = spec_stages (decoding_blocks self) skip_connections x
      (Nat.min (List.length skip_connections) (List.length (decoding_blocks self)))
  /\ forall e : PyError,
       Decoder_forward self skip_connections x = Raise e ->
       exists (k : nat) (block : DecodingBlock) (skip xk : T),
         (k < Nat.min (List.length skip_connections)
                (List.length (decoding_blocks self)))%nat
         /\ nth_error (decoding_blocks self) k = Some block
         /\ nth_error skip_connections (List.length skip_connections - 1 - k)
            = Some skip
         /\ spec_stages (decoding_blocks self) skip_connections x k = Ok xk
         /\ DecodingBlock_forward block skip xk = Raise e.
Proof.
  intros _. split.
  - apply Decoder_forward_stages.
  - intros e. rewrite Decoder_forward_stages.
    apply spec_stages_Raise. lia.
Qed.

Lemma Decoder_forward_truncates_witness :
  @Decoder_forward _ example_torch example_decoder
    [[1; 2; 32]; [1; 4; 16]; [1; 8; 8]] [1; 16; 4] = Ok [1; 4; 16]
  /\ @Decoder_forward _ example_torch example_decoder
       [[1; 8; 8]] [1; 16; 4] = Ok [1; 8; 8].
Proof.
  split.
  - rewrite (proj1 (@Decoder_forward_truncates _ example_torch example_decoder
                      [[1; 2; 32]; [1; 4; 16]; [1; 8; 8]] [1; 16; 4]
                      ltac:(discriminate))).
    reflexivity.
  - rewrite (proj1 (@Decoder_forward_truncates _ example_torch example_decoder
                      [[1; 8; 8]] [1; 16; 4] ltac:(discriminate))).
    reflexivity.
Defined.

(** ** [DecodingBlock.forward] *)

Section BlockForward.

Context {T : Type} `{Torch T}.

(** What [forward] returns, for any block: the main path applied to the
    concatenation, plus, when [self.residual] holds, the residual block
    applied to the same concatenation. *)
Lemma DecodingBlock_forward_returns (self : DecodingBlock) (skip x y : T) :
  DecodingBlock_forward self skip x = Ok y
  <-> exists concat main : T,
        spec_concat self skip x = Ok concat
        /\ spec_main_path self concat = Ok main
        /\ if residual self then
             exists (shortcut : ConvolutionalBlock) (connection : T),
               conv_residual self = Some shortcut
               /\ conv_block_call shortcut concat = Ok connection
               /\ tensor_iadd main connection = Ok y
           else y = main.
Proof.
  unfold DecodingBlock_forward, spec_concat, spec_main_path, get_conv_residual,
    CHANNELS_DIMENSION.
  destruct (upsample_call (upsample self) x) as [u | e]; simpl;
    [| split; [discriminate | intros [? [? [Habs _]]]; discriminate Habs]].
  destruct (center_crop skip u) as [s | e]; simpl;
    [| split; [discriminate | intros [? [? [Habs _]]]; discriminate Habs]].
  destruct (torch_cat [s; u] 1) as [cc | e]; simpl;
    [| split; [discriminate | intros [? [? [Habs _]]]; discriminate Habs]].
  destruct (residual self).
  - split.
    + intros Hrun.
      destruct (conv_residual self) as [shortcut |]; simpl in Hrun;
        [| discriminate Hrun].
      destruct (conv_block_call shortcut cc) as [connection | e] eqn:Hconn;
        simpl in Hrun; [| discriminate Hrun].
      destruct (conv_block_call (conv1 self) cc) as [a | e] eqn:H1;
        simpl in Hrun; [| discriminate Hrun].
      destruct (conv_block_call (conv2 self) a) as [main | e] eqn:H2;
        simpl in Hrun; [| discriminate Hrun].
      destruct (tensor_iadd main connection) as [r | e] eqn:Hadd;
        simpl in Hrun; [| discriminate Hrun].
      injection Hrun as <-.
      exists cc, main. split; [reflexivity |].
      split; [rewrite H1; exact H2 |].
      exists shortcut, connection. repeat split; assumption.
    + intros [concat [main [Hcc [Hmain [shortcut [connection [Hs [Hc Hadd]]]]]]]].
      injection Hcc as <-. rewrite Hs. simpl. rewrite Hc. simpl.
      destruct (conv_block_call (conv1 self) cc) as [a | e]; simpl;
        [| discriminate Hmain].
      rewrite Hmain. simpl. rewrite Hadd. reflexivity.
  - split.
    + intros Hrun.
      destruct (conv_block_call (conv1 self) cc) as [a | e] eqn:H1;
        simpl in Hrun; [| discriminate Hrun].
      destruct (conv_block_call (conv2 self) a) as [main | e] eqn:H2;
        simpl in Hrun; [| discriminate Hrun].
      injection Hrun as <-.
      exists cc, main. split; [reflexivity |].
      split; [rewrite H1; exact H2 | reflexivity].
    + intros [concat [main [Hcc [Hmain ->]]]].
      injection Hcc as <-.
      destruct (conv_block_call (conv1 self) cc) as [a | e]; simpl;
        [| discriminate Hmain].
      rewrite Hmain. reflexivity.
Qed.

End BlockForward.

Lemma DecodingBlock_init_residual (defaults : ConvSettings) (c dimensions : Z)
    (upsampling_type : string) (normalization : option string)
    (preactivation residual_flag padding : bool) (padding_mode : string)
    (activation : option string) (dilation : option Z) (self : DecodingBlock) :
  DecodingBlock_init defaults c dimensions upsampling_type normalization
    preactivation residual_flag padding padding_mode activation dilation = Ok self ->
  residual self = residual_flag
  /\ conv_residual self
     = if residual_flag then
         Some (ConvolutionalBlock_init defaults dimensions (c * 3) c
                 residual_path_kwargs)
       else None.
Proof.
  unfold DecodingBlock_init. intros Hinit.
  inv_bind Hinit. injection Hinit as <-. split; reflexivity.
Qed.

(** C4.  A block constructed with [residual=True] returns
    [conv2(conv1(concat)) + conv_residual(concat)], where [concat] is the
    concatenation of the cropped skip connection and the upsampled [x] and
    [conv_residual] is the block of kernel size 1 built by the constructor;
    a block constructed with [residual=False] returns [conv2(conv1(concat))]
    and adds nothing.  In both cases it returns nothing else, and raises
    exactly when one of these steps raises. *)
Theorem DecodingBlock_forward_residual_contract {T : Type} `{Torch T}
    (defaults : ConvSettings) (c dimensions : Z) (upsampling_type : string)
    (normalization : option string) (preactivation residual_flag padding : bool)
    (padding_mode : string) (activation : option string) (dilation : option Z)
    (self : DecodingBlock) (skip_connection x y : T) :
  DecodingBlock_init defaults c dimensions upsampling_type normalization
    preactivation residual_flag padding padding_mode activation dilation = Ok self ->
  DecodingBlock_forward self skip_connection x = Ok y
  <-> exists concat main : T,
        spec_concat self skip_connection x = Ok concat
        /\ spec_main_path self concat = Ok main
        /\ if residual_flag then
             exists connection : T,
               conv_block_call
                 (ConvolutionalBlock_init defaults dimensions (c * 3) c
                    residual_path_kwargs) concat = Ok connection
               /\ tensor_iadd main connection = Ok y
           else y = main.
Proof.
  intros Hinit.
  destruct (DecodingBlock_init_residual _ _ _ _ _ _ _ _ _ _ _ Hinit) as [Hres Hconv].
  rewrite DecodingBlock_forward_returns, Hres.
  destruct residual_flag.
  - split.
    + intros [concat [main [Hcc [Hmain [shortcut [connection [Hs [Hc Hadd]]]]]]]].
      rewrite Hconv in Hs. injection Hs as <-.
      exists concat, main. split; [exact Hcc |]. split; [exact Hmain |].
      exists connection. split; assumption.
    + intros [concat [main [Hcc [Hmain [connection [Hc Hadd]]]]]].
      exists concat, main. split; [exact Hcc |]. split; [exact Hmain |].
      eexists. exists connection. split; [exact Hconv |]. split; assumption.
  - reflexivity.
Qed.

Lemma DecodingBlock_forward_residual_contract_witness :
  @DecodingBlock_forward _ example_torch
    (conv_mode_block example_defaults 4 1 None true true true "zeros" None None)
    [1; 4; 8] [1; 8; 4] = Ok [1; 4; 8]
  /\ @DecodingBlock_forward _ example_torch
       (conv_mode_block example_defaults 4 1 None true false true "zeros" None None)
       [1; 4; 8] [1; 8; 4] = Ok [1; 4; 8].
Proof.
  split.
  - apply (proj2 (@DecodingBlock_forward_residual_contract _ example_torch
                    example_defaults 4 1 "conv" None true true true "zeros" None
                    None _ [1; 4; 8] [1; 8; 4] [1; 4; 8] eq_refl)).
    exists [1; 12; 8], [1; 4; 8]. split; [reflexivity |]. split; [reflexivity |].
    exists [1; 4; 8]. split; reflexivity.
  - apply (proj2 (@DecodingBlock_forward_residual_contract _ example_torch
                    example_defaults 4 1 "conv" None true false true "zeros" None
                    None _ [1; 4; 8] [1; 8; 4] [1; 4; 8] eq_refl)).
    exists [1; 12; 8], [1; 4; 8]. split; [reflexivity |]. split; reflexivity.
Defined.

(** ** Shapes: [center_crop] and the concatenation *)

Lemma mapM_ext_in {A B : Type} (f g : A -> Result B) (l : list A) :
  (forall a, In a l -> f a = g a) -> mapM f l = mapM g l.
Proof.
  induction l as [| a l IH]; intros Hfg; simpl.
  - reflexivity.
  - rewrite (Hfg a) by (left; reflexivity).
    rewrite IH by (intros b Hb; apply Hfg; right; exact Hb).
    reflexivity.
Qed.

Lemma mapM_Ok_nth {A B : Type} (f : A -> Result B) (l : list A) (r : list B) :
  mapM f l = Ok r ->
  List.length r = List.length l
  /\ forall (i : nat) (a : A), nth_error l i = Some a ->
       exists b, nth_error r i = Some b /\ f a = Ok b.
Proof.
  revert r. induction l as [| a l IH]; intros r Hr; simpl in Hr.
  - injection Hr as <-. split; [reflexivity |].
    intros i a Hi. destruct i; discriminate Hi.
  - inv_bind Hr. inv_bind Hr. injection Hr as <-.
    destruct (IH _ Hv0) as [Hlen Hnth].
    split; [simpl; f_equal; exact Hlen |].
    intros i a' Hi. destruct i as [| i].
    + injection Hi as <-. exists v. split; [reflexivity | exact Hv].
    + apply Hnth. exact Hi.
Qed.

Lemma map_nth_seq (h : list Z) :
  map (fun j => nth j h 0) (seq 0 (List.length h)) = h.
Proof.
  induction h as [| a h IH]; simpl; [reflexivity |].
  f_equal. rewrite <- seq_shift, map_map. exact IH.
Qed.

(** The interleaving [stack((h, h)).t().flatten()] repeats each element. *)
Lemma interleave_columns (h : list Z) :
  tensor_flatten (tensor_t (torch_stack h h)) = flat_map (fun a => [a; a]) h.
Proof.
  unfold tensor_flatten, tensor_t, torch_stack. cbn [hd map].
  transitivity (flat_map (fun a => [a; a])
                  (map (fun j => nth j h 0) (seq 0 (List.length h)))).
  - generalize (seq 0 (List.length h)) as js.
    induction js as [| j js IH]; simpl; [reflexivity | rewrite IH; reflexivity].
  - rewrite map_nth_seq. reflexivity.
Qed.

Lemma length_doubled (f : Z -> Z) (h : list Z) :
  List.length (flat_map (fun a => [f a; f a]) h) = (2 * List.length h)%nat.
Proof. induction h as [| a h IH]; simpl; [reflexivity | rewrite IH; lia]. Qed.

Lemma nth_doubled (f : Z -> Z) (h : list Z) (j : nat) :
  (j < List.length h)%nat ->
  nth (2 * j) (flat_map (fun a => [f a; f a]) h) 0 = f (nth j h 0)
  /\ nth (2 * j + 1) (flat_map (fun a => [f a; f a]) h) 0 = f (nth j h 0).
Proof.
  revert j. induction h as [| a h IH]; intros j Hj; simpl in Hj; [lia |].
  destruct j as [| j].
  - split; reflexivity.
  - replace (2 * S j)%nat with (S (S (2 * j))) by lia.
    replace (S (S (2 * j)) + 1)%nat with (S (S (2 * j + 1))) by lia.
    cbn [flat_map app nth]. apply IH. lia.
Qed.

(** The pad descriptor that [center_crop] computes from the half crops. *)
Lemma center_crop_pad (h : list Z) :
  tensor_neg (tensor_flatten (tensor_t (torch_stack h h)))
  = flat_map (fun a => [- a; - a]) h.
Proof.
  rewrite interleave_columns. unfold tensor_neg.
  induction h as [| a h IH]; simpl; [reflexivity | rewrite IH; reflexivity].
Qed.

Lemma nth_half_crops (sp_s sp_x : list Z) (j : nat) :
  List.length sp_s = List.length sp_x ->
  nth j (half_crops sp_s sp_x) 0 = (nth j sp_s 0 - nth j sp_x 0) / 2.
Proof.
  intros Hlen. unfold half_crops.
  change 0 with ((fun p : Z * Z => (fst p - snd p) / 2) (0, 0)) at 1.
  rewrite map_nth, combine_nth by exact Hlen. reflexivity.
Qed.

Lemma length_half_crops (sp_s sp_x : list Z) :
  List.length sp_s = List.length sp_x ->
  List.length (half_crops sp_s sp_x) = List.length sp_s.
Proof.
  intros Hlen. unfold half_crops.
  rewrite length_map, length_combine, <- Hlen. apply Nat.min_id.
Qed.

(** [F.pad] with one pair of amounts per spatial axis: the batch and channel
    axes are kept, and spatial axis [i] is padded by the pair that stands at
    position [k - 1 - i] of the descriptor. *)
Lemma pad_shape_spatial (f : Z -> Z) (n c : Z) (sp h : list Z) :
  List.length h = List.length sp ->
  pad_shape (n :: c :: sp) (flat_map (fun a => [f a; f a]) h)
  = bind (mapM (fun i => pad_axis (nth i sp 0)
                           (f (nth (List.length sp - 1 - i) h 0))
                           (f (nth (List.length sp - 1 - i) h 0)))
               (seq 0 (List.length sp)))
         (fun new_dims => Ok (n :: c :: new_dims)).
Proof.
  intros Hlen. unfold pad_shape.
  rewrite length_doubled, Hlen.
  change (List.length (n :: c :: sp)) with (S (S (List.length sp))).
  generalize dependent (List.length sp). intros k Hlen.
  assert (Hodd : Nat.odd (2 * k) = false).
  { rewrite Nat.odd_mul. reflexivity. }
  assert (Hdiv : Nat.div (2 * k) 2 = k).
  { rewrite Nat.mul_comm. apply Nat.div_mul. discriminate. }
  rewrite Hodd, Hdiv.
  assert (Hltb : Nat.ltb (S (S k)) k = false) by (apply Nat.ltb_ge; lia).
  rewrite Hltb.
  replace (S (S k) - k)%nat with 2%nat by lia.
  cbn [firstn app]. f_equal.
  apply mapM_ext_in. intros i Hi. apply in_seq in Hi.
  assert (Hj : (k - 1 - i < List.length h)%nat) by lia.
  destruct (nth_doubled f h Hj) as [Heven Hodd'].
  replace (2 * k - (i + 1) * 2)%nat with (2 * (k - 1 - i))%nat by lia.
  rewrite Heven, Hodd'. reflexivity.
Qed.

Section ShapeFacts.

Variable conv_spatial : ConvolutionalBlock -> list Z -> Result (list Z).

Local Notation "'shapes'" := (ShapeTorch conv_spatial).

(** [center_crop] on two feature maps with as many spatial axes: spatial
    axis [i] of the skip connection loses, on each side, the half crop of
    axis [k - 1 - i]. *)
Lemma center_crop_shape (n c n' c' : Z) (sp_s sp_x : list Z) :
  List.length sp_s = List.length sp_x ->
  @center_crop _ shapes (n :: c :: sp_s) (n' :: c' :: sp_x)
  = bind (mapM (fun i =>
                  pad_axis (nth i sp_s 0)
                    (- nth (List.length sp_s - 1 - i) (half_crops sp_s sp_x) 0)
                    (- nth (List.length sp_s - 1 - i) (half_crops sp_s sp_x) 0))
               (seq 0 (List.length sp_s)))
         (fun new_dims => Ok (n :: c :: new_dims)).
Proof.
  intros Hlen.
  assert (Heqb : Nat.eqb (List.length sp_s) (List.length sp_x) = true)
    by (apply Nat.eqb_eq; exact Hlen).
  unfold center_crop, tensor_shape, F_pad, ShapeTorch.
  cbn [skipn]. unfold tensor_sub. rewrite Heqb. cbn [bind].
  unfold tensor_floordiv. rewrite map_map. fold (half_crops sp_s sp_x).
  rewrite center_crop_pad.
  apply pad_shape_spatial. apply length_half_crops. exact Hlen.
Qed.

Lemma is_legacy_empty_feature_map (n c : Z) (sp : list Z) :
  is_legacy_empty (n :: c :: sp) = false.
Proof. destruct n; reflexivity. Qed.

(** [torch.cat] of two feature maps along the channel axis. *)
Lemma cat_shape_feature_maps (n c n' c' : Z) (sp sp' : list Z) :
  cat_shape [n :: c :: sp; n' :: c' :: sp'] 1
  = if same_except 1 (n :: c :: sp) (n' :: c' :: sp')
    then Ok (n :: (c + c') :: sp)
    else Raise RuntimeError.
Proof.
  unfold cat_shape. cbn [filter].
  rewrite !is_legacy_empty_feature_map. cbn [negb].
  unfold normalize_dim. change (1 <? 0) with false. cbv iota.
  change (0 <=? 1) with true.
  assert (Hlt : (1 <? Z.of_nat (List.length (n :: c :: sp))) = true).
  { apply Z.ltb_lt. simpl List.length. lia. }
  rewrite Hlt. cbn [andb bind forallb].
  change (Z.to_nat 1) with 1%nat.
  rewrite andb_true_r.
  destruct (same_except 1 (n :: c :: sp) (n' :: c' :: sp')); [| reflexivity].
  cbn [firstn skipn app map nth sum_Z fold_right].
  rewrite Z.add_0_r. reflexivity.
Qed.

(** Two feature maps that agree except on the channel axis have the same
    spatial extents. *)
Lemma same_except_spatial (n c n' c' : Z) (sp sp' : list Z) (i : nat) :
  same_except 1 (n :: c :: sp) (n' :: c' :: sp') = true ->
  (i < List.length sp)%nat -> nth i sp 0 = nth i sp' 0.
Proof.
  unfold same_except. intros Hsame Hi.
  apply andb_true_iff in Hsame. destruct Hsame as [_ Hall].
  rewrite forallb_forall in Hall.
  specialize (Hall (S (S i))).
  assert (Hin : In (S (S i)) (seq 0 (List.length (n :: c :: sp)))).
  { apply in_seq. simpl. lia. }
  specialize (Hall Hin). cbn [Nat.eqb orb nth] in Hall.
  apply Z.eqb_eq. exact Hall.
Qed.

Lemma pad_axis_Ok (size left right new_dim : Z) :
  pad_axis size left right = Ok new_dim -> new_dim = size + left + right.
Proof.
  unfold pad_axis.
  destruct ((0 <=? size + left + right) && (0 <=? size + Z.min left 0)
            && (0 <=? size + Z.min right 0)); [| discriminate].
  intros Hok. injection Hok as <-. reflexivity.
Qed.

Lemma pad_axis_symmetric (size h : Z) :
  0 <= size -> 0 <= size - 2 * h ->
  pad_axis size (- h) (- h) = Ok (size - 2 * h).
Proof.
  intros Hsize Hnew. unfold pad_axis.
  replace (size + - h + - h) with (size - 2 * h) by ring.
  assert (H1 : (0 <=? size - 2 * h) = true) by (apply Z.leb_le; lia).
  assert (H2 : (0 <=? size + Z.min (- h) 0) = true) by (apply Z.leb_le; lia).
  rewrite H1, H2. reflexivity.
Qed.

Lemma odd_floor_half (a : Z) : Z.odd a = true -> a = 2 * (a / 2) + 1.
Proof.
  intros Hodd. pose proof (Z.div_mod a 2) as Hdm.
  rewrite Zmod_odd, Hodd in Hdm. lia.
Qed.

(** With an odd crop on one of the axes, whatever [center_crop] returns
    cannot be concatenated with [x]: for any number of spatial axes. *)
Lemma odd_crop_never_concatenates (n c n' c' : Z) (sp_s sp_x cropped : list Z)
    (j : nat) :
  List.length sp_s = List.length sp_x ->
  (j < List.length sp_s)%nat ->
  Z.odd (nth j sp_s 0 - nth j sp_x 0) = true ->
  @center_crop _ shapes (n :: c :: sp_s) (n' :: c' :: sp_x) = Ok cropped ->
  cat_shape [cropped; n' :: c' :: sp_x] 1 = Raise RuntimeError.
Proof.
  intros Hlen Hj Hodd Hcrop.
  rewrite center_crop_shape in Hcrop by exact Hlen.
  inv_bind Hcrop. injection Hcrop as <-. rename v into new_dims.
  destruct (mapM_Ok_nth _ _ Hv) as [Hlen' Hnth]. rewrite length_seq in Hlen'.
  rewrite cat_shape_feature_maps.
  destruct (same_except 1 (n :: c :: new_dims) (n' :: c' :: sp_x)) eqn:Hsame;
    [exfalso | reflexivity].
  assert (Heven : forall i, (i < List.length sp_s)%nat ->
            nth i sp_s 0 - nth i sp_x 0
            = 2 * nth (List.length sp_s - 1 - i) (half_crops sp_s sp_x) 0).
  { intros i Hi.
    destruct (Hnth i i) as [b [Hb Hpad]].
    { rewrite nth_error_seq. destruct (Nat.ltb_spec i (List.length sp_s)); [reflexivity | lia]. }
    apply pad_axis_Ok in Hpad.
    rewrite <- (@same_except_spatial _ _ _ _ _ _ i Hsame) by lia.
    rewrite (@nth_error_nth _ _ _ _ 0 Hb). lia. }
  (* axis [j] is halved by the crop of axis [k - 1 - j], and the other way
     round: both crops are even *)
  set (k := List.length sp_s) in *.
  assert (Hj' : (k - 1 - j < k)%nat) by lia.
  pose proof (Heven (k - 1 - j)%nat Hj') as Hmirror.
  replace (k - 1 - (k - 1 - j))%nat with j in Hmirror by lia.
  rewrite nth_half_crops in Hmirror by exact Hlen.
  apply odd_floor_half in Hodd.
  pose proof (Heven j Hj) as Hself.
  rewrite nth_half_crops in Hself by exact Hlen.
  set (a := nth j sp_s 0 - nth j sp_x 0) in *.
  set (b := nth (k - 1 - j) sp_s 0 - nth (k - 1 - j) sp_x 0) in *.
  (* a = 2 * (b / 2), b = 2 * (a / 2), a = 2 * (a / 2) + 1 *)
  lia.
Qed.

(** So [DecodingBlock.forward] does not return when the upsampled [x] and
    the skip connection differ by an odd amount on some axis. *)
Lemma odd_crop_forward_raises (self : DecodingBlock) (x : list Z)
    (n c n' c' : Z) (sp_s sp_x : list Z) (j : nat) :
  @upsample_call _ shapes (upsample self) x = Ok (n' :: c' :: sp_x) ->
  List.length sp_s = List.length sp_x ->
  (j < List.length sp_s)%nat ->
  Z.odd (nth j sp_s 0 - nth j sp_x 0) = true ->
  succeeds (@DecodingBlock_forward _ shapes self (n :: c :: sp_s) x) = false.
Proof.
  intros Hup Hlen Hj Hodd.
  unfold DecodingBlock_forward. rewrite Hup. cbn [bind].
  destruct (@center_crop _ shapes (n :: c :: sp_s) (n' :: c' :: sp_x))
    as [cropped | e] eqn:Hcrop; [| reflexivity].
  cbn [bind]. change (@torch_cat _ shapes) with cat_shape.
  unfold CHANNELS_DIMENSION.
  rewrite (@odd_crop_never_concatenates n c n' c' sp_s sp_x cropped j Hlen Hj Hodd Hcrop).
  reflexivity.
Qed.

End ShapeFacts.

(** ** Shapes: the claims *)

(** C1 (the code departs from it).  For a skip connection of spatial shape
    (10, 20, 30) and an upsampled [x] of spatial shape (6, 14, 12),
    [center_crop] computes the pad descriptor (-2, -2, -3, -3, -9, -9) and
    hands it to [F.pad] as it is.  [F.pad] reads its pairs from the last
    axis backwards, so the pair (-2, -2) lands on the axis of extent 30 and
    the pair (-9, -9) on the axis of extent 10: the call raises, where the
    descriptor in the reverse axis order would have given (6, 14, 12). *)
Theorem center_crop_example_misaligned
    (conv_spatial : ConvolutionalBlock -> list Z -> Result (list Z))
    (n c n' c' : Z) :
  @center_crop _ (ShapeTorch conv_spatial) [n; c; 10; 20; 30] [n'; c'; 6; 14; 12]
  = pad_shape [n; c; 10; 20; 30] [-2; -2; -3; -3; -9; -9]
  /\ pad_shape [n; c; 10; 20; 30] [-2; -2; -3; -3; -9; -9] = Raise RuntimeError
  /\ pad_shape [n; c; 10; 20; 30] [-2; -2; -3; -3; 0; 0] = Ok [n; c; 10; 14; 26]
  /\ pad_shape [n; c; 10; 20; 30] [-9; -9; -3; -3; -2; -2] = Ok [n; c; 6; 14; 12].
Proof. repeat split. Qed.

(** C8 (the code departs from it).  With two spatial axes, a skip
    connection of extents (11, 20) and an upsampled [x] of extents (6, 14),
    the crops are (5, 6) and the half crops (2, 3).  The axis with the odd
    crop should come out with extent [11 - 2 * 2 = 7]; [center_crop] hands
    the descriptor (-2, -2, -3, -3) to [F.pad], which reads it from the last
    axis, so that axis loses 3 on each side and comes out with extent 5, and
    the other one with 16 instead of 14.  The descriptor in the reverse axis
    order gives (7, 14).  The concatenation raises in either case. *)
Theorem center_crop_odd_crop_mirrored
    (conv_spatial : ConvolutionalBlock -> list Z -> Result (list Z))
    (n c n' c' : Z) :
  @center_crop _ (ShapeTorch conv_spatial) [n; c; 11; 20] [n'; c'; 6; 14]
  = Ok [n; c; 5; 16]
  /\ 11 - 2 * ((11 - 6) / 2) = 7
  /\ pad_shape [n; c; 11; 20] [-3; -3; -2; -2] = Ok [n; c; 7; 14]
  /\ cat_shape [[n; c; 5; 16]; [n'; c'; 6; 14]] CHANNELS_DIMENSION
     = Raise RuntimeError
  /\ cat_shape [[n; c; 7; 14]; [n'; c'; 6; 14]] CHANNELS_DIMENSION
     = Raise RuntimeError.
Proof.
  split; [reflexivity |]. split; [reflexivity |]. split; [reflexivity |].
  unfold CHANNELS_DIMENSION. rewrite !cat_shape_feature_maps.
  unfold same_except. cbn [List.length Nat.eqb seq forallb nth orb andb].
  destruct (n =? n'); split; reflexivity.
Qed.

(** X16.  On one spatial axis, with an odd crop [s - e] between the extent
    [s] of the skip connection and the extent [e] of the upsampled [x]
    (11 against 6, say), [center_crop] returns the extent
    [s - 2 * floor((s - e) / 2)], which is [e + 1] and not [e] (7 against
    6); the concatenation along the channel axis then raises, and so does
    [DecodingBlock.forward]: nothing repairs the mismatch. *)
Theorem center_crop_odd_crop
    (conv_spatial : ConvolutionalBlock -> list Z -> Result (list Z))
    (self : DecodingBlock) (x : list Z) (n c n' c' s e : Z) :
  0 <= s -> 0 <= e -> Z.odd (s - e) = true ->
  @upsample_call _ (ShapeTorch conv_spatial) (upsample self) x = Ok [n'; c'; e] ->
  @center_crop _ (ShapeTorch conv_spatial) [n; c; s] [n'; c'; e]
  = Ok [n; c; s - 2 * ((s - e) / 2)]
  /\ s - 2 * ((s - e) / 2) = e + 1
  /\ cat_shape [[n; c; s - 2 * ((s - e) / 2)]; [n'; c'; e]] CHANNELS_DIMENSION
     = Raise RuntimeError
  /\ @DecodingBlock_forward _ (ShapeTorch conv_spatial) self [n; c; s] x
     = Raise RuntimeError.
Proof.
  intros Hs He Hodd Hup.
  pose proof (odd_floor_half _ Hodd) as Hhalf.
  assert (Hcrop : @center_crop _ (ShapeTorch conv_spatial) [n; c; s] [n'; c'; e]
                  = Ok [n; c; s - 2 * ((s - e) / 2)]).
  { rewrite center_crop_shape by reflexivity.
    cbn [List.length seq mapM Nat.sub half_crops combine map nth fst snd].
    rewrite pad_axis_symmetric by lia. reflexivity. }
  assert (Hcat : cat_shape [[n; c; s - 2 * ((s - e) / 2)]; [n'; c'; e]]
                   CHANNELS_DIMENSION = Raise RuntimeError).
  { apply (@odd_crop_never_concatenates conv_spatial n c n' c' [s] [e] _ 0%nat);
      [reflexivity | simpl; lia | exact Hodd | exact Hcrop]. }
  split; [exact Hcrop |]. split; [lia |]. split; [exact Hcat |].
  unfold DecodingBlock_forward. rewrite Hup. cbn [bind].
  rewrite Hcrop. cbn [bind].
  change (@torch_cat _ (ShapeTorch conv_spatial)) with cat_shape.
  rewrite Hcat. reflexivity.
Qed.

Lemma center_crop_odd_crop_witness :
  @center_crop _ example_torch [1; 4; 11] [1; 8; 6] = Ok [1; 4; 7]
  /\ @DecodingBlock_forward _ example_torch
       (conv_mode_block example_defaults 4 1 None true false true "zeros" None None)
       [1; 4; 11] [1; 8; 3] = Raise RuntimeError.
Proof.
  assert (Hs : 0 <= 11) by lia.
  assert (He : 0 <= 6) by lia.
  destruct (@center_crop_odd_crop same_spatial
              (conv_mode_block example_defaults 4 1 None true false true "zeros"
                 None None)
              [1; 8; 3] 1 4 1 8 11 6 Hs He eq_refl eq_refl)
    as [Hcrop [_ [_ Hforward]]].
  split; [exact Hcrop | exact Hforward].
Defined.

Lemma get_conv_transpose_layer_Ok_inv (dimensions in_channels out_channels : Z)
    (layer : Upsample) :
  get_conv_transpose_layer [PyInt dimensions; PyInt in_channels; PyInt out_channels]
  = Ok layer ->
  0 <= in_channels /\ 0 <= out_channels
  /\ exists spatial_dims : nat,
       layer = UpConvTranspose
                 {| ct_spatial_dims := spatial_dims;
                    ct_in_channels := in_channels;
                    ct_out_channels := out_channels;
                    ct_kernel_size := 2;
                    ct_stride := 2 |}.
Proof.
  unfold get_conv_transpose_layer, py_call. cbn [List.length Nat.eqb].
  intros Hlayer. inv_bind Hlayer. unfold conv_class_new in Hlayer.
  destruct (Z.leb_spec 0 in_channels) as [Hi |]; [| discriminate Hlayer].
  destruct (Z.leb_spec 0 out_channels) as [Ho |]; [| discriminate Hlayer].
  cbn [andb bind] in Hlayer. injection Hlayer as <-.
  split; [exact Hi |]. split; [exact Ho |]. exists v. reflexivity.
Qed.

(** What a successful construction has built. *)
Lemma DecodingBlock_init_Ok_inv (defaults : ConvSettings) (c dimensions : Z)
    (upsampling_type : string) (normalization : option string)
    (preactivation residual_flag padding : bool) (padding_mode : string)
    (activation : option string) (dilation : option Z) (self : DecodingBlock) :
  DecodingBlock_init defaults c dimensions upsampling_type normalization
    preactivation residual_flag padding padding_mode activation dilation = Ok self ->
  exists spatial_dims : nat,
    upsample self
    = UpConvTranspose
        {| ct_spatial_dims := spatial_dims; ct_in_channels := 2 * c;
           ct_out_channels := 2 * c; ct_kernel_size := 2; ct_stride := 2 |}
    /\ cb_in_channels (conv1 self) = c * 3
    /\ cb_out_channels (conv1 self) = c
    /\ cb_in_channels (conv2 self) = c
    /\ cb_out_channels (conv2 self) = c.
Proof.
  intros Hinit.
  pose proof (DecodingBlock_init_Ok_conv _ _ _ _ _ _ _ _ _ _ _ Hinit) as ->.
  unfold DecodingBlock_init in Hinit. change (String.eqb "conv" "conv") with true in Hinit.
  cbv iota in Hinit. inv_bind Hinit. injection Hinit as <-.
  cbv zeta in Hv. apply get_conv_transpose_layer_Ok_inv in Hv.
  destruct Hv as [_ [_ [spatial_dims ->]]]. exists spatial_dims. repeat split.
Qed.

(** When a transposed convolution returns, and what. *)
Lemma conv_transpose_shape_Ok (layer : ConvTranspose) (x y : list Z) :
  conv_transpose_shape layer x = Ok y ->
  exists (n : Z) (spatial : list Z),
    x = n :: ct_in_channels layer :: spatial
    /\ List.length spatial = ct_spatial_dims layer
    /\ 0 < ct_in_channels layer
    /\ 0 < ct_out_channels layer
    /\ y = n :: ct_out_channels layer
             :: map (fun e => (e - 1) * ct_stride layer + ct_kernel_size layer)
                  spatial.
Proof.
  unfold conv_transpose_shape.
  destruct x as [| n [| ch spatial]]; try discriminate.
  destruct (Nat.eqb_spec (List.length spatial) (ct_spatial_dims layer)) as [Hrank |];
    [| discriminate].
  destruct (Z.eqb_spec ch (ct_in_channels layer)) as [-> |]; [| discriminate].
  destruct (Z.ltb_spec 0 (ct_in_channels layer)) as [Hin |]; [| discriminate].
  destruct (Z.ltb_spec 0 (ct_out_channels layer)) as [Hout |]; [| discriminate].
  destruct (forallb (fun e => 0 <? e) spatial); [| discriminate].
  cbn [andb]. intros Hy. injection Hy as <-.
  exists n, spatial. repeat split; assumption.
Qed.

Lemma conv_transpose_shape_returns (layer : ConvTranspose) (n : Z)
    (spatial : list Z) :
  List.length spatial = ct_spatial_dims layer ->
  0 < ct_in_channels layer ->
  0 < ct_out_channels layer ->
  Forall (fun e => 0 < e) spatial ->
  conv_transpose_shape layer (n :: ct_in_channels layer :: spatial)
  = Ok (n :: ct_out_channels layer
          :: map (fun e => (e - 1) * ct_stride layer + ct_kernel_size layer)
               spatial).
Proof.
  intros Hrank Hin Hout Hpos. unfold conv_transpose_shape.
  rewrite Hrank, Nat.eqb_refl, Z.eqb_refl.
  apply Z.ltb_lt in Hin, Hout. rewrite Hin, Hout.
  assert (Hall : forallb (fun e => 0 <? e) spatial = true).
  { apply forallb_forall. intros e He. apply Z.ltb_lt.
    rewrite Forall_forall in Hpos. apply Hpos. exact He. }
  rewrite Hall. reflexivity.
Qed.

Lemma conv_block_shape_Ok
    (conv_spatial : ConvolutionalBlock -> list Z -> Result (list Z))
    (block : ConvolutionalBlock) (x y : list Z) :
  conv_block_shape conv_spatial block x = Ok y ->
  nth 1 x 0 = cb_in_channels block /\ nth 1 y 0 = cb_out_channels block.
Proof.
  unfold conv_block_shape. destruct x as [| n [| ch spatial]]; try discriminate.
  destruct (Z.eqb_spec ch (cb_in_channels block)) as [Heq | _]; [| discriminate].
  intros Hy. inv_bind Hy. injection Hy as <-. split; [exact Heq | reflexivity].
Qed.

Lemma iadd_shape_Ok (x y r : list Z) : iadd_shape x y = Ok r -> r = x.
Proof.
  unfold iadd_shape. destruct (broadcastable_to y x); [| discriminate].
  intros Hr. injection Hr as <-. reflexivity.
Qed.

(** C9.  A constructed block has a first convolutional block from
    [3 * in_channels_skip_connection] to [in_channels_skip_connection]
    channels and a second one from [in_channels_skip_connection] to itself.
    Whatever the tensor library, when [forward] returns it has called
    [torch.cat] on the list that holds the cropped skip connection first
    and the upsampled [x] second, with [dim = 1], and has fed the result to
    the first convolutional block and that block's result to the second.
    On shapes, the concatenation of two feature maps has the channels of the
    skip connection plus those of [x], and the result of [forward] has
    [in_channels_skip_connection] channels. *)
Theorem forward_channel_counts
    (defaults : ConvSettings) (c dimensions : Z) (upsampling_type : string)
    (normalization : option string) (preactivation residual_flag padding : bool)
    (padding_mode : string) (activation : option string) (dilation : option Z)
    (self : DecodingBlock) :
  DecodingBlock_init defaults c dimensions upsampling_type normalization
    preactivation residual_flag padding padding_mode activation dilation = Ok self ->
  (cb_in_channels (conv1 self) = 3 * c
   /\ cb_out_channels (conv1 self) = c
   /\ cb_in_channels (conv2 self) = c
   /\ cb_out_channels (conv2 self) = c)
  /\ (forall (T : Type) (library : Torch T) (skip_connection x y : T),
        @DecodingBlock_forward T library self skip_connection x = Ok y ->
        exists upsampled cropped concat hidden main : T,
          @upsample_call T library (upsample self) x = Ok upsampled
          /\ @center_crop T library skip_connection upsampled = Ok cropped
          /\ @torch_cat T library [cropped; upsampled] 1 = Ok concat
          /\ @conv_block_call T library (conv1 self) concat = Ok hidden
          /\ @conv_block_call T library (conv2 self) hidden = Ok main
          /\ (residual_flag = false -> y = main))
  /\ (forall (conv_spatial : ConvolutionalBlock -> list Z -> Result (list Z))
             (n_s c_s : Z) (sp_s : list Z) (n_x c_x : Z) (sp_x : list Z)
             (y : list Z),
        List.length sp_s = List.length sp_x ->
        @DecodingBlock_forward _ (ShapeTorch conv_spatial) self
          (n_s :: c_s :: sp_s) (n_x :: c_x :: sp_x) = Ok y ->
        (exists upsampled cropped concat : list Z,
           @upsample_call _ (ShapeTorch conv_spatial) (upsample self)
             (n_x :: c_x :: sp_x) = Ok upsampled
           /\ @center_crop _ (ShapeTorch conv_spatial) (n_s :: c_s :: sp_s)
                upsampled = Ok cropped
           /\ cat_shape [cropped; upsampled] CHANNELS_DIMENSION = Ok concat
           /\ nth 1 cropped 0 = c_s
           /\ nth 1 upsampled 0 = c_x
           /\ nth 1 concat 0 = c_s + c_x)
        /\ nth 1 y 0 = c).
Proof.
  intros Hinit.
  destruct (DecodingBlock_init_Ok_inv _ _ _ _ _ _ _ _ _ _ _ Hinit)
    as [spatial_dims [Hup [Hin1 [Hout1 [Hin2 Hout2]]]]].
  pose proof (DecodingBlock_init_residual _ _ _ _ _ _ _ _ _ _ _ Hinit)
    as [Hflag _].
  split; [repeat split; try assumption; lia |]. split.
  - (* the calls, for any library *)
    intros T library skip x y Hrun.
    apply DecodingBlock_forward_returns in Hrun.
    destruct Hrun as [concat [main [Hconcat [Hmain Hres]]]].
    unfold spec_concat in Hconcat.
    destruct (@upsample_call T library (upsample self) x)
      as [upsampled | e] eqn:Hupsampled; [| discriminate Hconcat].
    destruct (@center_crop T library skip upsampled)
      as [cropped | e] eqn:Hcropped; [| discriminate Hconcat].
    unfold spec_main_path in Hmain.
    destruct (@conv_block_call T library (conv1 self) concat)
      as [hidden | e] eqn:Hhidden; [| discriminate Hmain].
    exists upsampled, cropped, concat, hidden, main.
    repeat (split; [first [reflexivity | assumption] |]).
    intros Hfalse. rewrite Hflag, Hfalse in Hres. exact Hres.
  - (* the channel counts, on shapes *)
    intros conv_spatial n_s c_s sp_s n_x c_x sp_x y Hlen Hrun.
    apply DecodingBlock_forward_returns in Hrun.
    destruct Hrun as [concat [main [Hconcat [Hmain Hres]]]].
    unfold spec_concat in Hconcat.
    destruct (@upsample_call _ (ShapeTorch conv_spatial) (upsample self)
                (n_x :: c_x :: sp_x)) as [upsampled | e] eqn:Hupsampled;
      [| discriminate Hconcat].
    assert (Hu : exists sp_u, upsampled = n_x :: c_x :: sp_u
                              /\ List.length sp_u = List.length sp_x).
    { rewrite Hup in Hupsampled.
      cbn [upsample_call conv_transpose_call ShapeTorch] in Hupsampled.
      apply conv_transpose_shape_Ok in Hupsampled.
      destruct Hupsampled as [n [spatial [Hx [_ [_ [_ Hy]]]]]].
      cbn [ct_in_channels ct_out_channels] in Hx, Hy.
      injection Hx as -> -> ->. subst upsampled.
      eexists. split; [reflexivity |]. apply length_map. }
    destruct Hu as [sp_u [-> Hlen_u]].
    destruct (@center_crop _ (ShapeTorch conv_spatial) (n_s :: c_s :: sp_s)
                (n_x :: c_x :: sp_u)) as [cropped | e] eqn:Hcropped;
      [| discriminate Hconcat].
    assert (Hc : exists sp_c, cropped = n_s :: c_s :: sp_c).
    { rewrite center_crop_shape in Hcropped by congruence.
      inv_bind Hcropped. injection Hcropped as <-. eexists. reflexivity. }
    destruct Hc as [sp_c ->].
    change (@torch_cat _ (ShapeTorch conv_spatial)) with cat_shape in Hconcat.
    assert (Hcc : nth 1 concat 0 = c_s + c_x).
    { rewrite cat_shape_feature_maps in Hconcat.
      destruct (same_except 1 (n_s :: c_s :: sp_c) (n_x :: c_x :: sp_u));
        [| discriminate Hconcat].
      injection Hconcat as <-. reflexivity. }
    split.
    { exists (n_x :: c_x :: sp_u), (n_s :: c_s :: sp_c), concat.
      repeat split; try assumption; reflexivity. }
    assert (Hmain_ch : nth 1 main 0 = c).
    { unfold spec_main_path in Hmain.
      destruct (@conv_block_call _ (ShapeTorch conv_spatial) (conv1 self) concat)
        as [a | e]; [| discriminate Hmain].
      apply conv_block_shape_Ok in Hmain. destruct Hmain as [_ Hmain].
      rewrite Hmain. exact Hout2. }
    destruct (residual self).
    + destruct Hres as [shortcut [connection [_ [_ Hadd]]]].
      apply iadd_shape_Ok in Hadd. subst y. exact Hmain_ch.
    + subst y. exact Hmain_ch.
Qed.

Lemma forward_channel_counts_witness :
  exists y : list Z,
    @DecodingBlock_forward _ example_torch
      (conv_mode_block example_defaults 4 2 None true true true "zeros" None None)
      [1; 4; 12; 10] [1; 8; 5; 4] = Ok y
    /\ nth 1 y 0 = 4.
Proof.
  exists [1; 4; 10; 8]. split; [reflexivity |].
  exact (proj2 (proj2 (proj2
    (@forward_channel_counts example_defaults 4 2 "conv" None true
       true true "zeros" None None _ eq_refl)) same_spatial
    1 4 [12; 10] 1 8 [5; 4] [1; 4; 10; 8] eq_refl eq_refl)).
Defined.

(** * Further properties of the code *)

(** ** Which constructions succeed *)

Lemma to_int_not_nil (z : Z) :
  Z.to_int z <> Decimal.Pos Decimal.Nil /\ Z.to_int z <> Decimal.Neg Decimal.Nil.
Proof.
  destruct z as [| p | p]; simpl; split; try discriminate;
    intros Heq; injection Heq as Heq;
    exact (DecimalPos.Unsigned.to_uint_nonnil p Heq).
Qed.

(** [f'{d}'] tells integers apart. *)
Lemma py_format_int_inj (a b : Z) :
  py_format (PyInt a) = py_format (PyInt b) -> a = b.
Proof.
  simpl. intros Heq.
  destruct (to_int_not_nil a) as [Ha1 Ha2].
  destruct (to_int_not_nil b) as [Hb1 Hb2].
  pose proof (NilZero.isi (Z.to_int a) Ha1 Ha2) as Hpa.
  pose proof (NilZero.isi (Z.to_int b) Hb1 Hb2) as Hpb.
  rewrite Heq, Hpb in Hpa. injection Hpa as Hpa.
  rewrite <- (DecimalZ.of_to a), <- (DecimalZ.of_to b), Hpa. reflexivity.
Qed.

Lemma append_d_inj (s t : string) : (s ++ "d" = t ++ "d")%string -> s = t.
Proof.
  revert t. induction s as [| a s IH]; intros t Heq.
  - destruct t as [| b t]; [reflexivity |].
    simpl in Heq. injection Heq as _ Heq. destruct t; discriminate Heq.
  - destruct t as [| b t].
    + simpl in Heq. injection Heq as _ Heq. destruct s; discriminate Heq.
    + simpl in Heq. injection Heq as -> Heq. f_equal. apply IH. exact Heq.
Qed.

Lemma getattr_nn_conv_transpose (dimensions : Z) :
  getattr_nn ("ConvTranspose" ++ py_format (PyInt dimensions) ++ "d")%string
  = if (1 <=? dimensions) && (dimensions <=? 3)
    then Ok (Z.to_nat dimensions)
    else Raise AttributeError.
Proof.
  destruct ((1 <=? dimensions) && (dimensions <=? 3)) eqn:Hvalid.
  - apply andb_true_iff in Hvalid. destruct Hvalid as [H1 H3].
    apply Z.leb_le in H1, H3.
    assert (Hcases : dimensions = 1 \/ dimensions = 2 \/ dimensions = 3) by lia.
    destruct Hcases as [-> | [-> | ->]]; reflexivity.
  - assert (Hne : forall k : Z, 1 <= k <= 3 ->
              (py_format (PyInt dimensions) ++ "d")%string
              <> (py_format (PyInt k) ++ "d")%string).
    { intros k Hk Heq. apply append_d_inj, py_format_int_inj in Heq. subst k.
      apply andb_false_iff in Hvalid.
      destruct Hvalid as [H | H]; [apply Z.leb_gt in H | apply Z.leb_gt in H]; lia. }
    pose proof (Hne 1 ltac:(lia)) as Hne1.
    pose proof (Hne 2 ltac:(lia)) as Hne2.
    pose proof (Hne 3 ltac:(lia)) as Hne3.
    change (py_format (PyInt 1) ++ "d")%string with "1d" in Hne1.
    change (py_format (PyInt 2) ++ "d")%string with "2d" in Hne2.
    change (py_format (PyInt 3) ++ "d")%string with "3d" in Hne3.
    apply String.eqb_neq in Hne1, Hne2, Hne3.
    unfold getattr_nn, nn_conv_transpose_classes.
    generalize dependent (py_format (PyInt dimensions) ++ "d")%string.
    intros name _ Hne1 Hne2 Hne3.
    cbn [assoc_string String.append String.eqb Ascii.eqb Bool.eqb].
    rewrite Hne1, Hne2, Hne3. reflexivity.
Qed.

Lemma DecodingBlock_init_conv_cases (defaults : ConvSettings) (c dimensions : Z)
    (normalization : option string) (preactivation residual padding : bool)
    (padding_mode : string) (activation : option string) (dilation : option Z) :
  DecodingBlock_init defaults c dimensions "conv" normalization preactivation
    residual padding padding_mode activation dilation
  = if (1 <=? dimensions) && (dimensions <=? 3)
    then if 0 <=? c
         then Ok (conv_mode_block defaults c dimensions normalization
                    preactivation residual padding padding_mode activation
                    dilation)
         else Raise RuntimeError
    else Raise AttributeError.
Proof.
  destruct ((1 <=? dimensions) && (dimensions <=? 3)) eqn:Hvalid.
  - destruct (Z.leb_spec 0 c) as [Hc | Hc].
    + apply DecodingBlock_init_conv; [| exact Hc].
      apply andb_true_iff in Hvalid. destruct Hvalid as [H1 H3].
      apply Z.leb_le in H1, H3. lia.
    + unfold DecodingBlock_init, get_conv_transpose_layer, py_call.
      change (String.eqb "conv" "conv") with true. cbv iota zeta.
      cbn [List.length Nat.eqb].
      rewrite getattr_nn_conv_transpose, Hvalid. cbn [bind].
      rewrite conv_class_new_negative by lia. reflexivity.
  - unfold DecodingBlock_init, get_conv_transpose_layer, py_call.
    change (String.eqb "conv" "conv") with true. cbv iota zeta.
    cbn [List.length Nat.eqb].
    rewrite getattr_nn_conv_transpose, Hvalid. reflexivity.
Qed.

(** X1.  [get_conv_transpose_layer] looks the class up first: it raises
    [AttributeError] for every integer [dimensions] other than 1, 2 and 3,
    whatever the channel counts, since the class name built from
    [dimensions] names no attribute of [torch.nn].  With 1, 2 or 3
    dimensions it returns a transposed convolution with kernel size 2 and
    stride 2 between the given channel counts when neither is negative, and
    raises [RuntimeError] when one is: the weight tensor cannot be
    allocated. *)
Theorem get_conv_transpose_layer_outcome (dimensions in_channels out_channels : Z) :
  get_conv_transpose_layer [PyInt dimensions; PyInt in_channels; PyInt out_channels]
  = if (1 <=? dimensions) && (dimensions <=? 3)
    then if (0 <=? in_channels) && (0 <=? out_channels)
         then Ok (UpConvTranspose
                    {| ct_spatial_dims := Z.to_nat dimensions;
                       ct_in_channels := in_channels;
                       ct_out_channels := out_channels;
                       ct_kernel_size := 2;
                       ct_stride := 2 |})
         else Raise RuntimeError
    else Raise AttributeError.
Proof.
  unfold get_conv_transpose_layer, py_call. cbn [List.length Nat.eqb].
  rewrite getattr_nn_conv_transpose.
  destruct ((1 <=? dimensions) && (dimensions <=? 3)); [| reflexivity].
  cbn [bind]. unfold conv_class_new.
  destruct ((0 <=? in_channels) && (0 <=? out_channels)); reflexivity.
Qed.



Lemma combine_nil_r {A B : Type} (l : list A) : combine l (@nil B) = [].
Proof. destruct l; reflexivity. Qed.

(** X4.  A decoder built with [num_decoding_blocks <= 0], in whatever mode,
    is the identity: its [forward] returns [x] itself for every list of skip
    connections.  So does any decoder that is given no skip connection: no
    decoding block runs and nothing is raised. *)
Theorem Decoder_without_stages_is_identity {T : Type} `{Torch T}
    (defaults : ConvSettings) (c dimensions : Z) (upsampling_type : string)
    (n : Z) (normalization : option string)
    (preactivation residual padding : bool) (padding_mode : string)
    (activation : option string) (initial_dilation : option Z) :
  n <= 0 ->
  (exists decoder : Decoder,
     Decoder_init defaults c dimensions upsampling_type n normalization
       preactivation residual padding padding_mode activation initial_dilation
     = Ok decoder
     /\ forall (skip_connections : list T) (x : T),
          Decoder_forward decoder skip_connections x = Ok x)
  /\ forall (self : Decoder) (x : T), Decoder_forward self [] x = Ok x.
Proof.
  intros Hn. split.
  - unfold Decoder_init. replace (Z.to_nat n) with 0%nat by lia.
    eexists. split; [reflexivity |].
    intros skip_connections x. unfold Decoder_forward. cbn [decoding_blocks st_blocks].
    rewrite combine_nil_r. reflexivity.
  - intros self x. reflexivity.
Qed.

Lemma Decoder_without_stages_is_identity_witness :
  exists decoder : Decoder,
    Decoder_init example_defaults 8 7 "nearest" 0 None true false false "zeros"
      None (Some 3) = Ok decoder
    /\ @Decoder_forward _ example_torch decoder [[1; 4; 16]; [1; 8; 8]] [1; 16; 4]
       = Ok [1; 16; 4].
Proof.
  assert (Hn : 0 <= 0) by lia.
  destruct (proj1 (@Decoder_without_stages_is_identity _ example_torch
                     example_defaults 8 7 "nearest" 0 None true false false
                     "zeros" None (Some 3) Hn))
    as [decoder [Hinit Hid]].
  exists decoder. split; [exact Hinit | apply Hid].
Defined.

(** ** How [Decoder.forward] composes *)

Lemma combine_app_same_length {A B : Type} (l1 l2 : list A) (b1 b2 : list B) :
  List.length l1 = List.length b1 ->
  combine (l1 ++ l2) (b1 ++ b2) = combine l1 b1 ++ combine l2 b2.
Proof.
  revert b1. induction l1 as [| a l1 IH]; intros b1 Hlen.
  - destruct b1; [reflexivity | discriminate Hlen].
  - destruct b1 as [| b b1]; [discriminate Hlen |].
    cbn [app combine]. f_equal. apply IH. injection Hlen as Hlen. exact Hlen.
Qed.

(** X5.  A decoder whose blocks are [first ++ second] runs as the decoder
    of [first] followed by the decoder of [second]: the skip connections of
    the first part are the LAST ones of the list, and the result of the
    first part (or its exception) is handed to the second. *)
Theorem Decoder_forward_app {T : Type} `{Torch T}
    (first second : list DecodingBlock) (d d1 d2 : option Z)
    (skips_first skips_second : list T) (x : T) :
  List.length skips_first = List.length first ->
  Decoder_forward {| decoding_blocks := first ++ second; dilation := d |}
    (skips_second ++ skips_first) x
  = bind (Decoder_forward {| decoding_blocks := first; dilation := d1 |}
            skips_first x)
         (Decoder_forward {| decoding_blocks := second; dilation := d2 |}
            skips_second).
Proof.
  intros Hlen. unfold Decoder_forward. cbn [decoding_blocks].
  rewrite rev_app_distr, combine_app_same_length
    by (rewrite length_rev; exact Hlen).
  apply forward_loop_app.
Qed.

Lemma Decoder_forward_app_witness :
  @Decoder_forward _ example_torch example_decoder [[1; 4; 16]; [1; 8; 8]] [1; 16; 4]
  = bind (@Decoder_forward _ example_torch
            {| decoding_blocks := firstn 1 (decoding_blocks example_decoder);
               dilation := None |} [[1; 8; 8]] [1; 16; 4])
         (@Decoder_forward _ example_torch
            {| decoding_blocks := skipn 1 (decoding_blocks example_decoder);
               dilation := None |} [[1; 4; 16]]).
Proof.
  exact (@Decoder_forward_app _ example_torch
           (firstn 1 (decoding_blocks example_decoder))
           (skipn 1 (decoding_blocks example_decoder)) None None None
           [[1; 8; 8]] [[1; 4; 16]] [1; 16; 4] eq_refl).
Defined.

(** X6.  [Decoder.forward] reads only what it pairs.  With more skip
    connections than blocks the leading (first-listed) skip connections are
    never used, and with more blocks than skip connections the trailing
    blocks are never run: the result is the one obtained without them. *)
Theorem Decoder_forward_ignores_surplus {T : Type} `{Torch T}
    (blocks surplus_blocks : list DecodingBlock) (d d' : option Z)
    (skip_connections surplus_skips : list T) (x : T) :
  List.length skip_connections = List.length blocks ->
  Decoder_forward {| decoding_blocks := blocks; dilation := d |}
    (surplus_skips ++ skip_connections) x
  = Decoder_forward {| decoding_blocks := blocks; dilation := d |}
      skip_connections x
  /\ Decoder_forward {| decoding_blocks := blocks ++ surplus_blocks; dilation := d' |}
       skip_connections x
     = Decoder_forward {| decoding_blocks := blocks; dilation := d |}
         skip_connections x.
Proof.
  intros Hlen. unfold Decoder_forward. cbn [decoding_blocks]. split.
  - rewrite rev_app_distr.
    rewrite <- (app_nil_r blocks) at 1.
    rewrite combine_app_same_length by (rewrite length_rev; exact Hlen).
    rewrite combine_nil_r, app_nil_r. reflexivity.
  - rewrite <- (app_nil_r (rev skip_connections)) at 1.
    rewrite combine_app_same_length by (rewrite length_rev; exact Hlen).
    cbn [combine]. rewrite app_nil_r. reflexivity.
Qed.

Lemma Decoder_forward_ignores_surplus_witness :
  @Decoder_forward _ example_torch example_decoder
    [[7; 7]; [1; 4; 16]; [1; 8; 8]] [1; 16; 4]
  = @Decoder_forward _ example_torch example_decoder
      [[1; 4; 16]; [1; 8; 8]] [1; 16; 4].
Proof.
  exact (proj1 (@Decoder_forward_ignores_surplus _ example_torch
                  (decoding_blocks example_decoder) [] None None
                  [[1; 4; 16]; [1; 8; 8]] [[7; 7]] [1; 16; 4] eq_refl)).
Defined.

(** ** What [center_crop] does to a feature map *)

Lemma mapM_Ok_map {A B : Type} (f : A -> Result B) (g : A -> B) (l : list A) :
  (forall a, In a l -> f a = Ok (g a)) -> mapM f l = Ok (map g l).
Proof.
  induction l as [| a l IH]; intros Hfg; simpl.
  - reflexivity.
  - rewrite (Hfg a) by (left; reflexivity). cbn [bind].
    rewrite IH by (intros b Hb; apply Hfg; right; exact Hb).
    reflexivity.
Qed.

Lemma mapM_Ok_unique {A B : Type} (f : A -> Result B) (g : A -> B) (l : list A)
    (r : list B) :
  (forall a b, In a l -> f a = Ok b -> b = g a) ->
  mapM f l = Ok r -> r = map g l.
Proof.
  revert r. induction l as [| a l IH]; intros r Hfg Hr; simpl in Hr.
  - injection Hr as <-. reflexivity.
  - inv_bind Hr. inv_bind Hr. injection Hr as <-.
    cbn [map]. f_equal.
    + apply Hfg; [left; reflexivity | exact Hv].
    + apply IH; [| exact Hv0].
      intros a' b Ha'. apply Hfg. right. exact Ha'.
Qed.

Lemma Forall_nth_nonneg (l : list Z) (i : nat) :
  Forall (fun e => 0 <= e) l -> 0 <= nth i l 0.
Proof.
  intros Hall. destruct (Nat.lt_ge_cases i (List.length l)) as [Hi | Hi].
  - rewrite Forall_forall in Hall. apply Hall. apply nth_In. exact Hi.
  - rewrite nth_overflow by exact Hi. lia.
Qed.

Section CenterCropShapes.

Variable conv_spatial : ConvolutionalBlock -> list Z -> Result (list Z).

Local Notation "'shapes'" := (ShapeTorch conv_spatial).

(** When no axis would be left with a negative extent, [center_crop]
    returns. *)
Lemma center_crop_returns (n c n' c' : Z) (sp_s sp_x : list Z) :
  List.length sp_s = List.length sp_x ->
  Forall (fun e => 0 <= e) sp_s ->
  Forall (fun e => 0 <= e) (mirrored_crop sp_s sp_x) ->
  @center_crop _ shapes (n :: c :: sp_s) (n' :: c' :: sp_x)
  = Ok (n :: c :: mirrored_crop sp_s sp_x).
Proof.
  intros Hlen Hs Hnew.
  rewrite center_crop_shape by exact Hlen.
  unfold mirrored_crop in *.
  rewrite (@mapM_Ok_map _ _ _
             (fun i => nth i sp_s 0
                       - 2 * nth (List.length sp_s - 1 - i) (half_crops sp_s sp_x) 0)).
  - reflexivity.
  - intros i Hi. apply pad_axis_symmetric.
    + apply Forall_nth_nonneg. exact Hs.
    + rewrite Forall_forall in Hnew. apply Hnew.
      apply (in_map (fun i => nth i sp_s 0
                              - 2 * nth (List.length sp_s - 1 - i)
                                        (half_crops sp_s sp_x) 0)).
      exact Hi.
Qed.

(** X7.  On two feature maps with as many spatial axes, [center_crop] keeps
    the batch and channel axes and removes from spatial axis [i], on each
    side, the half crop computed for axis [k - 1 - i] (the axes are
    mirrored, because [F.pad] reads the descriptor from the last axis): it
    returns these extents whenever none of them is negative, and never
    returns anything else. *)
Theorem center_crop_mirrors_axes (n c n' c' : Z) (sp_s sp_x : list Z) :
  List.length sp_s = List.length sp_x ->
  (Forall (fun e => 0 <= e) sp_s ->
   Forall (fun e => 0 <= e) (mirrored_crop sp_s sp_x) ->
   @center_crop _ shapes (n :: c :: sp_s) (n' :: c' :: sp_x)
   = Ok (n :: c :: mirrored_crop sp_s sp_x))
  /\ (forall cropped : list Z,
        @center_crop _ shapes (n :: c :: sp_s) (n' :: c' :: sp_x) = Ok cropped ->
        cropped = n :: c :: mirrored_crop sp_s sp_x).
Proof.
  intros Hlen. split.
  - apply center_crop_returns. exact Hlen.
  - intros cropped Hcrop.
    rewrite center_crop_shape in Hcrop by exact Hlen.
    inv_bind Hcrop. injection Hcrop as <-. do 2 f_equal.
    unfold mirrored_crop.
    eapply mapM_Ok_unique; [| exact Hv].
    intros i b _ Hpad. apply pad_axis_Ok in Hpad. cbv beta. lia.
Qed.

End CenterCropShapes.

Lemma center_crop_mirrors_axes_witness :
  @center_crop _ example_torch [1; 4; 10; 12] [1; 8; 6; 10] = Ok [1; 4; 8; 8].
Proof.
  apply (proj1 (@center_crop_mirrors_axes same_spatial 1 4 1 8 [10; 12] [6; 10]
                  eq_refl)).
  - repeat constructor; lia.
  - repeat constructor; vm_compute; discriminate.
Defined.

(** X8.  Whatever the tensor library, on two tensors with as many spatial
    axes [center_crop] makes one call of [F.pad], on the skip connection,
    with the descriptor that lists the axes from the first spatial axis to
    the last and gives each of them the pair [(-h, -h)],
    [h = (skip extent - x extent) // 2]; the code's example
    (-2, -2, -3, -3, -9, -9) is one instance. *)
Theorem center_crop_pad_descriptor {T : Type} `{Torch T} (skip_connection x : T)
    (n c n' c' : Z) (sp_s sp_x : list Z) :
  tensor_shape skip_connection = n :: c :: sp_s ->
  tensor_shape x = n' :: c' :: sp_x ->
  List.length sp_s = List.length sp_x ->
  center_crop skip_connection x
  = F_pad skip_connection
      (flat_map (fun h => [- h; - h])
         (map (fun p => (fst p - snd p) / 2) (combine sp_s sp_x))).
Proof.
  intros Hs Hx Hlen.
  assert (Heqb : Nat.eqb (List.length sp_s) (List.length sp_x) = true)
    by (apply Nat.eqb_eq; exact Hlen).
  unfold center_crop. rewrite Hs, Hx. cbn [skipn].
  unfold tensor_sub. rewrite Heqb. cbn [bind].
  unfold tensor_floordiv. rewrite map_map, center_crop_pad. reflexivity.
Qed.

Lemma center_crop_pad_descriptor_witness :
  @center_crop _ example_torch [1; 4; 10; 20; 30] [1; 8; 6; 14; 12]
  = pad_shape [1; 4; 10; 20; 30] [-2; -2; -3; -3; -9; -9].
Proof.
  exact (@center_crop_pad_descriptor _ example_torch
           [1; 4; 10; 20; 30] [1; 8; 6; 14; 12] 1 4 1 8 [10; 20; 30] [6; 14; 12]
           eq_refl eq_refl eq_refl).
Defined.

Lemma nth_spatial_crops (sp_s sp_x : list Z) (j : nat) :
  List.length sp_s = List.length sp_x ->
  nth j (spatial_crops sp_s sp_x) 0 = nth j sp_s 0 - nth j sp_x 0.
Proof.
  intros Hlen. unfold spatial_crops.
  change 0 with ((fun p : Z * Z => fst p - snd p) (0, 0)) at 1.
  rewrite map_nth, combine_nth by exact Hlen. reflexivity.
Qed.

Lemma length_spatial_crops (sp_s sp_x : list Z) :
  List.length sp_s = List.length sp_x ->
  List.length (spatial_crops sp_s sp_x) = List.length sp_s.
Proof.
  intros Hlen. unfold spatial_crops.
  rewrite length_map, length_combine, <- Hlen. apply Nat.min_id.
Qed.

Lemma even_floor_half (a : Z) : Z.even a = true -> 2 * (a / 2) = a.
Proof.
  intros Heven. pose proof (Z.div_mod a 2) as Hdm.
  rewrite Zmod_even, Heven in Hdm. lia.
Qed.

(** With even crops that read the same in both axis orders, the mirrored
    crop is the crop that was meant. *)
Lemma mirrored_crop_symmetric (sp_s sp_x : list Z) :
  List.length sp_s = List.length sp_x ->
  rev (spatial_crops sp_s sp_x) = spatial_crops sp_s sp_x ->
  Forall (fun a => Z.even a = true) (spatial_crops sp_s sp_x) ->
  mirrored_crop sp_s sp_x = sp_x.
Proof.
  intros Hlen Hrev Heven.
  rewrite <- (map_nth_seq sp_x) at 2. rewrite <- Hlen.
  unfold mirrored_crop. apply map_ext_in. intros i Hi. apply in_seq in Hi.
  rewrite nth_half_crops by exact Hlen.
  rewrite <- nth_spatial_crops by exact Hlen.
  replace (List.length sp_s - 1 - i)%nat
    with (List.length (spatial_crops sp_s sp_x) - S i)%nat
    by (rewrite length_spatial_crops by exact Hlen; lia).
  rewrite <- rev_nth by (rewrite length_spatial_crops by exact Hlen; lia).
  rewrite Hrev.
  rewrite even_floor_half.
  - rewrite nth_spatial_crops by exact Hlen. lia.
  - rewrite Forall_forall in Heven. apply Heven. apply nth_In.
    rewrite length_spatial_crops by exact Hlen. lia.
Qed.

(** X9.  [center_crop] does crop (or, for a skip connection that is
    smaller, pad) the skip connection to exactly the spatial shape of [x]
    when every per-axis difference is even and the differences read the
    same from the first axis to the last as from the last to the first: one
    spatial axis, the same margin on every axis, or any palindrome of
    margins. *)
Theorem center_crop_exact_when_symmetric
    (conv_spatial : ConvolutionalBlock -> list Z -> Result (list Z))
    (n c n' c' : Z) (sp_s sp_x : list Z) :
  List.length sp_s = List.length sp_x ->
  Forall (fun e => 0 <= e) sp_s ->
  Forall (fun e => 0 <= e) sp_x ->
  rev (spatial_crops sp_s sp_x) = spatial_crops sp_s sp_x ->
  Forall (fun a => Z.even a = true) (spatial_crops sp_s sp_x) ->
  @center_crop _ (ShapeTorch conv_spatial) (n :: c :: sp_s) (n' :: c' :: sp_x)
  = Ok (n :: c :: sp_x).
Proof.
  intros Hlen Hs Hx Hrev Heven.
  pose proof (@mirrored_crop_symmetric sp_s sp_x Hlen Hrev Heven) as Hmirror.
  rewrite center_crop_returns; [rewrite Hmirror; reflexivity | exact Hlen | exact Hs |].
  rewrite Hmirror. exact Hx.
Qed.

Lemma center_crop_exact_when_symmetric_witness :
  @center_crop _ example_torch [1; 4; 12; 20; 16] [1; 8; 8; 14; 12]
  = Ok [1; 4; 8; 14; 12]
  /\ @center_crop _ example_torch [1; 4; 6] [1; 8; 10] = Ok [1; 4; 10].
Proof.
  split.
  - apply center_crop_exact_when_symmetric;
      [reflexivity | repeat constructor; lia | repeat constructor; lia
       | reflexivity | repeat constructor].
  - apply center_crop_exact_when_symmetric;
      [reflexivity | repeat constructor; lia | repeat constructor; lia
       | reflexivity | repeat constructor].
Defined.

(** ** What [DecodingBlock.forward] needs from its inputs *)

Lemma forward_upsample_raises
    (conv_spatial : ConvolutionalBlock -> list Z -> Result (list Z))
    (self : DecodingBlock) (skip x : list Z) (e : PyError) :
  @upsample_call _ (ShapeTorch conv_spatial) (upsample self) x = Raise e ->
  @DecodingBlock_forward _ (ShapeTorch conv_spatial) self skip x = Raise e.
Proof. intros Hup. unfold DecodingBlock_forward. rewrite Hup. reflexivity. Qed.

(** The transposed convolution of a constructed block doubles every
    spatial extent. *)
Lemma nth_doubled_extents (sp : list Z) (j : nat) :
  nth j (map (fun e => (e - 1) * 2 + 2) sp) 0 = 2 * nth j sp 0.
Proof.
  change 0 with ((fun e => (e - 1) * 2 + 2) 0) at 1.
  rewrite map_nth. lia.
Qed.

(** X10.  A constructed block never returns on a skip connection (of the
    block's dimensionality) that has an odd extent on some spatial axis,
    whatever [x] is: the upsampled [x] has even extents only, so the crop on
    that axis is odd and the concatenation cannot succeed. *)
Theorem forward_raises_on_odd_skip_extent
    (conv_spatial : ConvolutionalBlock -> list Z -> Result (list Z))
    (defaults : ConvSettings) (c dimensions : Z) (upsampling_type : string)
    (normalization : option string) (preactivation residual_flag padding : bool)
    (padding_mode : string) (activation : option string) (dilation : option Z)
    (self : DecodingBlock) (n c_s : Z) (sp_s : list Z) (j : nat) (x : list Z) :
  DecodingBlock_init defaults c dimensions upsampling_type normalization
    preactivation residual_flag padding padding_mode activation dilation = Ok self ->
  List.length sp_s = Z.to_nat dimensions ->
  (j < List.length sp_s)%nat ->
  Z.odd (nth j sp_s 0) = true ->
  succeeds (@DecodingBlock_forward _ (ShapeTorch conv_spatial) self
              (n :: c_s :: sp_s) x) = false.
Proof.
  intros Hinit Hdims Hj Hodd.
  pose proof (DecodingBlock_init_Ok_conv _ _ _ _ _ _ _ _ _ _ _ Hinit) as ->.
  rewrite DecodingBlock_init_conv_cases in Hinit.
  destruct ((1 <=? dimensions) && (dimensions <=? 3)); [| discriminate Hinit].
  destruct (0 <=? c); [| discriminate Hinit].
  injection Hinit as <-.
  destruct (@upsample_call _ (ShapeTorch conv_spatial)
              (upsample (conv_mode_block defaults c dimensions normalization
                           preactivation residual_flag padding padding_mode
                           activation dilation)) x)
    as [upsampled | e] eqn:Hup;
    [| rewrite (forward_upsample_raises _ _ _ _ Hup); reflexivity].
  pose proof Hup as Hshape.
  cbn [upsample conv_mode_block upsample_call conv_transpose_call ShapeTorch]
    in Hshape.
  apply conv_transpose_shape_Ok in Hshape.
  destruct Hshape as [n' [sp_x [-> [Hlen [_ [_ ->]]]]]].
  cbn [ct_spatial_dims ct_in_channels ct_out_channels ct_stride ct_kernel_size]
    in Hlen, Hup |- *.
  apply (@odd_crop_forward_raises conv_spatial _ _ n c_s n' (2 * c) sp_s
           (map (fun e => (e - 1) * 2 + 2) sp_x) j Hup).
  - rewrite length_map. congruence.
  - exact Hj.
  - rewrite nth_doubled_extents.
    replace (nth j sp_s 0 - 2 * nth j sp_x 0)
      with (nth j sp_s 0 + 2 * (- nth j sp_x 0)) by ring.
    rewrite Z.odd_add_mul_2. exact Hodd.
Qed.

Lemma forward_raises_on_odd_skip_extent_witness :
  succeeds (@DecodingBlock_forward _ example_torch
              (conv_mode_block example_defaults 4 2 None true false true "zeros"
                 None None)
              [1; 4; 16; 15] [1; 8; 8; 7]) = false.
Proof.
  apply (@forward_raises_on_odd_skip_extent same_spatial example_defaults 4 2
           "conv" None true false true "zeros" None None _ 1 4 [16; 15] 1%nat
           [1; 8; 8; 7] eq_refl eq_refl).
  - simpl. lia.
  - reflexivity.
Defined.

(** ** Channel counts from one stage to the next *)

Lemma forward_output_channels
    (conv_spatial : ConvolutionalBlock -> list Z -> Result (list Z))
    (self : DecodingBlock) (skip x y : list Z) :
  @DecodingBlock_forward _ (ShapeTorch conv_spatial) self skip x = Ok y ->
  nth 1 y 0 = cb_out_channels (conv2 self).
Proof.
  intros Hrun. apply DecodingBlock_forward_returns in Hrun.
  destruct Hrun as [concat [main [_ [Hmain Hres]]]].
  assert (Hmain_ch : nth 1 main 0 = cb_out_channels (conv2 self)).
  { unfold spec_main_path in Hmain.
    destruct (@conv_block_call _ (ShapeTorch conv_spatial) (conv1 self) concat)
      as [a | e]; [| discriminate Hmain].
    apply conv_block_shape_Ok in Hmain. apply Hmain. }
  destruct (residual self).
  - destruct Hres as [shortcut [connection [_ [_ Hadd]]]].
    apply iadd_shape_Ok in Hadd. subst y. exact Hmain_ch.
  - subst y. exact Hmain_ch.
Qed.

Lemma conv_transpose_shape_wrong_channels (layer : ConvTranspose) (x : list Z) :
  nth 1 x 0 <> ct_in_channels layer ->
  conv_transpose_shape layer x = Raise RuntimeError.
Proof.
  intros Hne. unfold conv_transpose_shape.
  destruct x as [| n [| ch spatial]]; try reflexivity.
  cbn [nth] in Hne. apply Z.eqb_neq in Hne. rewrite Hne, andb_false_r.
  reflexivity.
Qed.

Lemma spec_stages_fail_mono {T : Type} `{Torch T} (blocks : list DecodingBlock)
    (skips : list T) (x : T) (j m : nat) :
  succeeds (spec_stages blocks skips x j) = false ->
  succeeds (spec_stages blocks skips x (j + m)) = false.
Proof.
  intros Hfail. induction m as [| m IH].
  - rewrite Nat.add_0_r. exact Hfail.
  - rewrite Nat.add_succ_r. cbn [spec_stages].
    destruct (spec_stages blocks skips x (j + m)); [discriminate IH | reflexivity].
Qed.

Lemma spec_stages_S {T : Type} `{Torch T} (blocks : list DecodingBlock)
    (skips : list T) (x : T) (j : nat) :
  spec_stages blocks skips x (S j)
  = match spec_stages blocks skips x j with
    | Raise e => Raise e
    | Ok xj =>
        match nth_error blocks j, nth_error skips (List.length skips - 1 - j) with
        | Some block, Some skip => DecodingBlock_forward block skip xj
        | _, _ => Raise IndexError
        end
    end.
Proof. reflexivity. Qed.

Lemma spec_stage_channels_half (c : Z) (k : nat) :
  spec_stage_channels c (S k) = spec_stage_channels c k / 2.
Proof.
  unfold spec_stage_channels.
  rewrite Nat2Z.inj_succ, Z.pow_succ_r by lia.
  rewrite (Z.mul_comm 2), Z.div_div by lia. reflexivity.
Qed.

(** X11.  In a decoder that [Decoder.__init__] has returned, from [c] skip
    channels and in whatever mode, if [c // 2^k] is odd for a stage [k] that
    has a successor, [Decoder.forward] never returns once both stages are
    paired with skip connections: stage [k] hands over [c // 2^k] channels,
    and the transposed convolution of stage [k + 1] was built for
    [2 * (c // 2^(k+1))] of them, one fewer. *)
Theorem odd_channels_break_next_stage
    (conv_spatial : ConvolutionalBlock -> list Z -> Result (list Z))
    (defaults : ConvSettings) (c dimensions : Z) (upsampling_type : string)
    (n : Z) (normalization : option string)
    (preactivation residual_flag padding : bool) (padding_mode : string)
    (activation : option string) (initial_dilation : option Z) (k : nat)
    (decoder : Decoder) :
  Decoder_init defaults c dimensions upsampling_type n normalization
    preactivation residual_flag padding padding_mode activation
    initial_dilation = Ok decoder ->
  Z.of_nat k + 2 <= n ->
  Z.odd (c / 2 ^ Z.of_nat k) = true ->
  forall (skip_connections : list (list Z)) (x : list Z),
    (k + 2 <= List.length skip_connections)%nat ->
    succeeds (@Decoder_forward _ (ShapeTorch conv_spatial) decoder
                skip_connections x) = false.
Proof.
  intros Hinit Hn Hodd skips x Hskips.
  apply Decoder_init_Ok in Hinit. destruct Hinit as [_ [Hlen Hnth]].
  rewrite Decoder_forward_stages, Hlen.
  destruct (Hnth k ltac:(lia)) as [block_k [Hblock_k Hinit_k]].
  destruct (Hnth (S k) ltac:(lia)) as [block_next [Hblock_next Hinit_next]].
  apply DecodingBlock_init_Ok_inv in Hinit_k, Hinit_next.
  destruct Hinit_k as [_ [_ [_ [_ [_ Hout]]]]].
  destruct Hinit_next as [spatial_dims [Hup _]].
  generalize dependent (decoding_blocks decoder). intros blocks _ _ Hblock_k Hblock_next.
  replace (Nat.min (List.length skips) (Z.to_nat n))
    with (S (S k) + (Nat.min (List.length skips) (Z.to_nat n) - S (S k)))%nat
    by lia.
  apply spec_stages_fail_mono.
  rewrite spec_stages_S.
  destruct (spec_stages blocks skips x (S k)) as [y |] eqn:Hy; [| reflexivity].
  rewrite Hblock_next.
  destruct (nth_error skips (List.length skips - 1 - S k)) as [skip' |];
    [| reflexivity].
  (* the channels that stage [k] hands over *)
  assert (Hch : nth 1 y 0 = spec_stage_channels c k).
  { rewrite spec_stages_S in Hy.
    destruct (spec_stages blocks skips x k) as [xk |]; [| discriminate Hy].
    rewrite Hblock_k in Hy.
    destruct (nth_error skips (List.length skips - 1 - k)) as [skip |];
      [| discriminate Hy].
    apply forward_output_channels in Hy. rewrite Hy. exact Hout. }
  rewrite forward_upsample_raises with (e := RuntimeError); [reflexivity |].
  rewrite Hup. cbn [upsample_call conv_transpose_call ShapeTorch].
  apply conv_transpose_shape_wrong_channels.
  rewrite Hch. cbn [ct_in_channels]. rewrite spec_stage_channels_half.
  change (c / 2 ^ Z.of_nat k) with (spec_stage_channels c k) in Hodd.
  apply odd_floor_half in Hodd. lia.
Qed.

Lemma odd_channels_break_next_stage_witness :
  exists decoder : Decoder,
    Decoder_init example_defaults 6 1 "conv" 3 None true false true "zeros" None
      None = Ok decoder
    /\ succeeds (@Decoder_forward _ example_torch decoder
                   [[1; 1; 32]; [1; 3; 16]; [1; 6; 8]] [1; 12; 4]) = false.
Proof.
  eexists. split; [reflexivity |].
  assert (Hn : Z.of_nat 1 + 2 <= 3) by (simpl; lia).
  apply (@odd_channels_break_next_stage same_spatial example_defaults 6 1
           "conv" 3 None true false true "zeros" None None 1%nat _ eq_refl Hn
           eq_refl).
  simpl. lia.
Defined.

(** ** The shapes that come out *)

Lemma same_except_channels (b c c' : Z) (sp : list Z) :
  same_except 1 (b :: c :: sp) (b :: c' :: sp) = true.
Proof.
  unfold same_except. cbn [List.length]. rewrite Nat.eqb_refl. cbn [andb].
  apply forallb_forall. intros i _.
  destruct i as [| [| i]]; cbn [Nat.eqb orb nth]; [apply Z.eqb_refl | reflexivity |].
  apply Z.eqb_refl.
Qed.

Lemma broadcastable_to_refl (x : list Z) : broadcastable_to x x = true.
Proof.
  unfold broadcastable_to. rewrite Nat.leb_refl. cbn [andb].
  generalize (rev x) as l. induction l as [| a l IH]; [reflexivity |].
  cbn [combine forallb fst snd]. rewrite Z.eqb_refl, IH. reflexivity.
Qed.

Lemma doubled_extents (sp : list Z) :
  map (fun e => (e - 1) * 2 + 2) sp = map (fun e => 2 * e) sp.
Proof. apply map_ext. intros e. lia. Qed.

Section KeptExtents.

Variable conv_spatial : ConvolutionalBlock -> list Z -> Result (list Z).

(** The convolutional blocks are configured to keep the spatial extents. *)
Hypothesis conv_spatial_keeps : forall block sp, conv_spatial block sp = Ok sp.

Local Notation "'shapes'" := (ShapeTorch conv_spatial).

Lemma conv_block_call_keeps (block : ConvolutionalBlock) (b ch : Z) (sp : list Z) :
  ch = cb_in_channels block ->
  @conv_block_call _ shapes block (b :: ch :: sp)
  = Ok (b :: cb_out_channels block :: sp).
Proof.
  intros ->. cbn [conv_block_call ShapeTorch]. unfold conv_block_shape.
  rewrite Z.eqb_refl, conv_spatial_keeps. reflexivity.
Qed.

(** One stage, once the skip connection is known to be cropped to the
    upsampled [x]. *)
Lemma forward_after_crop (defaults : ConvSettings) (c dimensions : Z)
    (normalization : option string) (preactivation residual_flag padding : bool)
    (padding_mode : string) (activation : option string) (dilation : option Z)
    (b c_s : Z) (sp_s sp_x : list Z) :
  0 < c ->
  List.length sp_x = Z.to_nat dimensions ->
  Forall (fun e => 0 < e) sp_x ->
  @center_crop _ shapes (b :: c_s :: sp_s) (b :: 2 * c :: map (fun e => 2 * e) sp_x)
  = Ok (b :: c :: map (fun e => 2 * e) sp_x) ->
  @DecodingBlock_forward _ shapes
    (conv_mode_block defaults c dimensions normalization preactivation
       residual_flag padding padding_mode activation dilation)
    (b :: c_s :: sp_s) (b :: 2 * c :: sp_x)
  = Ok (b :: c :: map (fun e => 2 * e) sp_x).
Proof.
  intros Hc Hdims Hpos Hcrop.
  assert (Hup : @upsample_call _ shapes
                  (upsample (conv_mode_block defaults c dimensions normalization
                               preactivation residual_flag padding padding_mode
                               activation dilation))
                  (b :: 2 * c :: sp_x)
                = Ok (b :: 2 * c :: map (fun e => 2 * e) sp_x)).
  { cbn [upsample conv_mode_block upsample_call conv_transpose_call ShapeTorch].
    rewrite <- doubled_extents.
    apply (@conv_transpose_shape_returns
             {| ct_spatial_dims := Z.to_nat dimensions; ct_in_channels := 2 * c;
                ct_out_channels := 2 * c; ct_kernel_size := 2; ct_stride := 2 |}
             b sp_x); cbn [ct_spatial_dims ct_in_channels ct_out_channels];
      [exact Hdims | lia | lia | exact Hpos]. }
  unfold DecodingBlock_forward. rewrite Hup. cbn [bind].
  rewrite Hcrop. cbn [bind].
  unfold CHANNELS_DIMENSION. rewrite cat_shape_feature_maps, same_except_channels.
  cbn [bind].
  replace (c + 2 * c) with (c * 3) by ring.
  unfold get_conv_residual.
  cbn [residual conv1 conv2 conv_residual conv_mode_block].
  destruct residual_flag; cbn [bind].
  - rewrite conv_block_call_keeps by reflexivity.
    cbn [bind cb_out_channels ConvolutionalBlock_init].
    rewrite conv_block_call_keeps by reflexivity.
    cbn [bind cb_out_channels ConvolutionalBlock_init].
    rewrite conv_block_call_keeps by reflexivity.
    cbn [bind cb_out_channels ConvolutionalBlock_init tensor_iadd ShapeTorch].
    unfold iadd_shape. rewrite broadcastable_to_refl. reflexivity.
  - rewrite conv_block_call_keeps by reflexivity.
    cbn [bind cb_out_channels ConvolutionalBlock_init].
    rewrite conv_block_call_keeps by reflexivity.
    reflexivity.
Qed.

End KeptExtents.

Lemma Forall_nonneg_scaled (f : Z) (sp : list Z) :
  0 <= f -> Forall (fun e => 0 <= e) sp ->
  Forall (fun e => 0 <= e) (map (fun e => f * e) sp).
Proof.
  intros Hf Hsp. apply Forall_map.
  eapply Forall_impl; [| exact Hsp]. cbv beta. intros e He. nia.
Qed.

Lemma Forall_pos_scaled (f : Z) (sp : list Z) :
  0 < f -> Forall (fun e => 0 < e) sp ->
  Forall (fun e => 0 < e) (map (fun e => f * e) sp).
Proof.
  intros Hf Hsp. apply Forall_map.
  eapply Forall_impl; [| exact Hsp]. cbv beta. intros e He. nia.
Qed.

Lemma Forall_pos_nonneg (sp : list Z) :
  Forall (fun e => 0 < e) sp -> Forall (fun e => 0 <= e) sp.
Proof. apply Forall_impl. intros e He. lia. Qed.

(** X12.  One stage on shapes, with convolutional blocks that keep the
    spatial extents.  Take a positive channel count [c], a positive batch
    size, and feature maps without an empty axis: [x] with [2 * c] channels
    and a skip connection with [c] channels whose extents exceed (or fall
    short of) twice those of [x] by even margins that read the same in both
    axis orders.  A block built for [c] skip channels in the ["conv"] mode
    with 1 to 3 dimensions returns [c] channels on twice the extents of [x],
    with or without the residual path. *)
Theorem forward_on_feature_maps
    (conv_spatial : ConvolutionalBlock -> list Z -> Result (list Z))
    (defaults : ConvSettings) (c dimensions : Z) (normalization : option string)
    (preactivation residual_flag padding : bool) (padding_mode : string)
    (activation : option string) (dilation : option Z)
    (b : Z) (sp_s sp_x : list Z) :
  (forall block sp, conv_spatial block sp = Ok sp) ->
  1 <= dimensions <= 3 ->
  0 < c ->
  0 < b ->
  List.length sp_x = Z.to_nat dimensions ->
  List.length sp_s = List.length sp_x ->
  Forall (fun e => 0 < e) sp_s ->
  Forall (fun e => 0 < e) sp_x ->
  rev (spatial_crops sp_s (map (fun e => 2 * e) sp_x))
  = spatial_crops sp_s (map (fun e => 2 * e) sp_x) ->
  Forall (fun a => Z.even a = true)
    (spatial_crops sp_s (map (fun e => 2 * e) sp_x)) ->
  exists self : DecodingBlock,
    DecodingBlock_init defaults c dimensions "conv" normalization preactivation
      residual_flag padding padding_mode activation dilation = Ok self
    /\ @DecodingBlock_forward _ (ShapeTorch conv_spatial) self
         (b :: c :: sp_s) (b :: 2 * c :: sp_x)
       = Ok (b :: c :: map (fun e => 2 * e) sp_x).
Proof.
  intros Hkeeps Hd Hc Hb Hdims Hlen Hs Hx Hrev Heven.
  eexists. split; [apply DecodingBlock_init_conv; [exact Hd | lia] |].
  assert (Hlen' : List.length sp_s = List.length (map (fun e => 2 * e) sp_x))
    by (rewrite length_map; exact Hlen).
  apply forward_after_crop; [exact Hkeeps | exact Hc | exact Hdims | exact Hx |].
  rewrite center_crop_returns;
    rewrite ?(@mirrored_crop_symmetric sp_s _ Hlen' Hrev Heven);
    [reflexivity | exact Hlen' | apply Forall_pos_nonneg; exact Hs |].
  apply Forall_nonneg_scaled; [lia | apply Forall_pos_nonneg; exact Hx].
Qed.

Lemma forward_on_feature_maps_witness :
  exists self : DecodingBlock,
    DecodingBlock_init example_defaults 4 2 "conv" None true true true "zeros"
      None None = Ok self
    /\ @DecodingBlock_forward _ example_torch self [1; 4; 14; 12] [1; 8; 5; 4]
       = Ok [1; 4; 10; 8].
Proof.
  apply (@forward_on_feature_maps same_spatial example_defaults 4 2 None true
           true true "zeros" None None 1 [14; 12] [5; 4]).
  - reflexivity.
  - lia.
  - lia.
  - lia.
  - reflexivity.
  - reflexivity.
  - repeat constructor; lia.
  - repeat constructor; lia.
  - reflexivity.
  - repeat constructor.
Defined.

(** ** A whole decoder on aligned shapes *)

Lemma mirrored_crop_diag (sp : list Z) : mirrored_crop sp sp = sp.
Proof.
  rewrite <- (map_nth_seq sp) at 3.
  unfold mirrored_crop. apply map_ext_in. intros i _.
  rewrite nth_half_crops by reflexivity.
  rewrite Z.sub_diag. change (0 / 2) with 0. lia.
Qed.

Lemma combine_map_map {A B C : Type} (f : A -> B) (g : A -> C) (l : list A) :
  combine (map f l) (map g l) = map (fun a => (f a, g a)) l.
Proof. induction l as [| a l IH]; simpl; [reflexivity | rewrite IH; reflexivity]. Qed.

Lemma halving_exact_step (n c : Z) (a : nat) :
  Z.of_nat (S a) < n -> (2 ^ (n - 1) | c) ->
  spec_stage_channels c a = 2 * spec_stage_channels c (S a).
Proof.
  intros Ha Hdiv.
  assert (Ha' : Z.of_nat a < n) by lia.
  pose proof (exact_halving a Ha' Hdiv) as H0.
  pose proof (exact_halving (S a) Ha Hdiv) as H1.
  rewrite pow2_succ in H1. pose proof (pow2_pos a) as Hpos.
  apply (Z.mul_reg_l _ _ (2 ^ Z.of_nat a)); [lia |].
  remember (spec_stage_channels c a) as ca.
  remember (spec_stage_channels c (S a)) as cb.
  remember (2 ^ Z.of_nat a) as p.
  rewrite H0, <- H1. ring.
Qed.

Lemma aligned_skip_doubled (b c : Z) (sp : list Z) (k : nat) :
  aligned_skip b c sp k
  = b :: spec_stage_channels c k
      :: map (fun e => 2 * e) (map (fun e => 2 ^ Z.of_nat k * e) sp).
Proof.
  unfold aligned_skip, spec_stage_channels. do 2 f_equal.
  rewrite map_map. apply map_ext. intros e. rewrite pow2_succ. ring.
Qed.

Section AlignedDecoder.

Variable conv_spatial : ConvolutionalBlock -> list Z -> Result (list Z).
Hypothesis conv_spatial_keeps : forall block sp, conv_spatial block sp = Ok sp.

Variables (defaults : ConvSettings) (c dimensions n : Z)
  (normalization : option string) (preactivation residual_flag padding : bool)
  (padding_mode : string) (activation : option string)
  (initial_dilation : option Z) (b : Z) (sp : list Z).

Hypothesis divisible : (2 ^ (n - 1) | c).
Hypothesis c_pos : 0 < c.
Hypothesis sp_rank : List.length sp = Z.to_nat dimensions.
Hypothesis sp_pos : Forall (fun e => 0 < e) sp.

Local Notation "'shapes'" := (ShapeTorch conv_spatial).
Local Notation "'stage'" := (stage_block defaults dimensions normalization
  preactivation residual_flag padding padding_mode activation c initial_dilation).

(** With [c] positive, so is the channel count of each of the [n] stages. *)
Lemma stage_channels_pos (a : nat) :
  Z.of_nat a < n -> 0 < spec_stage_channels c a.
Proof.
  intros Ha. pose proof (exact_halving a Ha divisible) as Hexact.
  pose proof (pow2_pos a) as Hpow. nia.
Qed.

(** Stage [a] on the skip connection that fits it. *)
Lemma stage_on_aligned_skip (a : nat) :
  Z.of_nat a < n ->
  @DecodingBlock_forward _ shapes (stage a) (aligned_skip b c sp a)
    (b :: 2 * spec_stage_channels c a :: map (fun e => 2 ^ Z.of_nat a * e) sp)
  = Ok (b :: spec_stage_channels c a
          :: map (fun e => 2 ^ Z.of_nat (S a) * e) sp).
Proof.
  intros Ha.
  replace (map (fun e => 2 ^ Z.of_nat (S a) * e) sp)
    with (map (fun e => 2 * e) (map (fun e => 2 ^ Z.of_nat a * e) sp))
    by (rewrite map_map; apply map_ext; intros e; rewrite pow2_succ; ring).
  rewrite aligned_skip_doubled. unfold stage_block.
  pose proof (pow2_pos a) as Hpow.
  apply forward_after_crop.
  - exact conv_spatial_keeps.
  - apply stage_channels_pos. exact Ha.
  - rewrite length_map. exact sp_rank.
  - apply Forall_pos_scaled; [exact Hpow | exact sp_pos].
  - rewrite center_crop_returns; rewrite ?mirrored_crop_diag;
      [reflexivity | reflexivity | |];
      apply Forall_pos_nonneg;
      apply Forall_pos_scaled; try lia;
      apply Forall_pos_scaled; try exact sp_pos; lia.
Qed.

(** The stages [a], ..., [a + m] in a row. *)
Lemma forward_loop_aligned (m : nat) : forall a : nat,
  Z.of_nat (a + m) < n ->
  @forward_loop _ shapes
    (map (fun k => (aligned_skip b c sp k, stage k)) (seq a (S m)))
    (b :: 2 * spec_stage_channels c a :: map (fun e => 2 ^ Z.of_nat a * e) sp)
  = Ok (b :: spec_stage_channels c (a + m)
          :: map (fun e => 2 ^ Z.of_nat (S (a + m)) * e) sp).
Proof.
  induction m as [| m IH]; intros a Ha.
  - cbn [seq map forward_loop]. rewrite stage_on_aligned_skip by lia.
    cbn [bind]. rewrite Nat.add_0_r. reflexivity.
  - change (seq a (S (S m))) with (a :: seq (S a) (S m)).
    cbn [map forward_loop]. rewrite stage_on_aligned_skip by lia. cbn [bind].
    rewrite (@halving_exact_step n c a) by (exact divisible || lia).
    rewrite IH by lia.
    replace (S a + m)%nat with (a + S m)%nat by lia. reflexivity.
Qed.

End AlignedDecoder.

(** X13.  A whole decoder on shapes, in the ["conv"] mode with 1 to 3
    dimensions and with convolutional blocks that keep the spatial extents.
    For [n >= 1] stages, a positive number [c] of skip channels that
    [2^(n-1)] divides, a bottleneck [x] with a positive batch size,
    [2 * c] channels and no empty axis, and skip
    connections listed from the shallowest to the deepest where the one
    consumed by stage [k] has [c // 2^k] channels and the extents of [x]
    doubled [k + 1] times, [Decoder.forward] returns [c // 2^(n-1)]
    channels on the extents of [x] doubled [n] times. *)
Theorem Decoder_forward_aligned_shapes
    (conv_spatial : ConvolutionalBlock -> list Z -> Result (list Z))
    (defaults : ConvSettings) (c dimensions n : Z) (normalization : option string)
    (preactivation residual_flag padding : bool) (padding_mode : string)
    (activation : option string) (initial_dilation : option Z)
    (b : Z) (sp : list Z) :
  (forall block s, conv_spatial block s = Ok s) ->
  1 <= dimensions <= 3 ->
  1 <= n ->
  0 < c ->
  (2 ^ (n - 1) | c) ->
  0 < b ->
  List.length sp = Z.to_nat dimensions ->
  Forall (fun e => 0 < e) sp ->
  exists decoder : Decoder,
    Decoder_init defaults c dimensions "conv" n normalization preactivation
      residual_flag padding padding_mode activation initial_dilation = Ok decoder
    /\ @Decoder_forward _ (ShapeTorch conv_spatial) decoder
         (rev (map (aligned_skip b c sp) (seq 0 (Z.to_nat n))))
         (b :: 2 * c :: sp)
       = Ok (b :: c / 2 ^ (n - 1) :: map (fun e => 2 ^ n * e) sp).
Proof.
  intros Hkeeps Hd Hn Hc Hdiv Hb Hrank Hpos.
  eexists. split; [apply Decoder_init_conv; [exact Hd | lia] |].
  unfold Decoder_forward. cbn [decoding_blocks].
  rewrite rev_involutive, combine_map_map.
  destruct (Z.to_nat n) as [| m] eqn:Hm; [lia |].
  assert (Hx : b :: 2 * c :: sp
               = b :: 2 * spec_stage_channels c 0
                   :: map (fun e => 2 ^ Z.of_nat 0 * e) sp).
  { rewrite spec_stage_channels_0. do 2 f_equal.
    rewrite <- (map_id sp) at 1. apply map_ext. intros e.
    change (2 ^ Z.of_nat 0) with 1. lia. }
  rewrite Hx.
  rewrite (@forward_loop_aligned conv_spatial Hkeeps defaults c dimensions n
             normalization preactivation residual_flag padding padding_mode
             activation initial_dilation b sp Hdiv Hc Hrank Hpos m 0%nat)
    by (simpl; lia).
  cbn [Nat.add]. unfold spec_stage_channels.
  replace (Z.of_nat m) with (n - 1) by lia.
  replace (Z.of_nat (S m)) with n by lia.
  reflexivity.
Qed.

Lemma Decoder_forward_aligned_shapes_witness :
  exists decoder : Decoder,
    Decoder_init example_defaults 16 2 "conv" 3 None true true true "zeros" None
      (Some 4) = Ok decoder
    /\ @Decoder_forward _ example_torch decoder
         [[1; 4; 24; 40]; [1; 8; 12; 20]; [1; 16; 6; 10]] [1; 32; 3; 5]
       = Ok [1; 4; 24; 40].
Proof.
  apply (@Decoder_forward_aligned_shapes same_spatial example_defaults 16 2 3
           None true true true "zeros" None (Some 4) 1 [3; 5]).
  - reflexivity.
  - lia.
  - lia.
  - lia.
  - exists 4. reflexivity.
  - lia.
  - reflexivity.
  - repeat constructor; lia.
Defined.

(** ** When the dilation runs out *)

(** X14.  In a decoder that [Decoder.__init__] has returned, in whatever
    mode and for whatever channel count and number of dimensions, with an
    initial dilation [d], the block of stage [k] was built with dilation 0
    exactly when [0 <= d < 2^k]: a positive dilation is used up after
    [log2 d + 1] stages and every later block gets 0, while a negative one
    never reaches 0. *)
Theorem Decoder_init_dilation_zero (defaults : ConvSettings)
    (c dimensions : Z) (upsampling_type : string) (n : Z)
    (normalization : option string)
    (preactivation residual_flag padding : bool) (padding_mode : string)
    (activation : option string) (d : Z) (decoder : Decoder) :
  Decoder_init defaults c dimensions upsampling_type n normalization
    preactivation residual_flag padding padding_mode activation (Some d)
  = Ok decoder ->
  forall k : nat, Z.of_nat k < n ->
    exists block : DecodingBlock,
      nth_error (decoding_blocks decoder) k = Some block
      /\ DecodingBlock_init defaults (spec_stage_channels c k) dimensions
           upsampling_type normalization preactivation residual_flag padding
           padding_mode activation (Some (d / 2 ^ Z.of_nat k)) = Ok block
      /\ (s_dilation (cb_settings (conv1 block)) = Some 0
          <-> 0 <= d < 2 ^ Z.of_nat k)
      /\ (s_dilation (cb_settings (conv2 block)) = Some 0
          <-> 0 <= d < 2 ^ Z.of_nat k).
Proof.
  intros Hinit k Hk.
  apply Decoder_init_Ok in Hinit. destruct Hinit as [_ [_ Hnth]].
  destruct (Hnth k ltac:(lia)) as [block [Hblock Hbuilt]].
  exists block. split; [exact Hblock |].
  cbn [spec_stage_dilation] in Hbuilt. split; [exact Hbuilt |].
  apply DecodingBlock_init_dilation in Hbuilt. destruct Hbuilt as [-> ->].
  assert (Hzero : Some (d / 2 ^ Z.of_nat k) = Some 0 <-> 0 <= d < 2 ^ Z.of_nat k).
  { pose proof (pow2_pos k) as Hpos. split.
    - intros Heq. injection Heq as Heq.
      apply Z.div_small_iff in Heq; lia.
    - intros Hsmall. f_equal. apply Z.div_small. exact Hsmall. }
  split; exact Hzero.
Qed.

Lemma Decoder_init_dilation_zero_witness :
  exists decoder : Decoder,
    Decoder_init example_defaults 64 3 "conv" 4 None true true false "zeros"
      (Some "ReLU"%string) (Some 2) = Ok decoder
    /\ exists block : DecodingBlock,
         nth_error (decoding_blocks decoder) 2 = Some block
         /\ (s_dilation (cb_settings (conv1 block)) = Some 0 <-> 0 <= 2 < 2 ^ 2).
Proof.
  eexists. split; [reflexivity |].
  assert (Hk : Z.of_nat 2 < 4) by (simpl; lia).
  destruct (@Decoder_init_dilation_zero example_defaults 64 3 "conv" 4 None
              true true false "zeros" (Some "ReLU"%string) 2 _ eq_refl
              2%nat Hk)
    as [block [Hblock [_ [Hzero _]]]].
  exists block. split; [exact Hblock | exact Hzero].
Defined.

(** ** What a block accepts *)

Lemma same_except_batch (n c n' c' : Z) (sp sp' : list Z) :
  same_except 1 (n :: c :: sp) (n' :: c' :: sp') = true -> n = n'.
Proof.
  unfold same_except. intros Hsame.
  apply andb_true_iff in Hsame. destruct Hsame as [_ Hall].
  rewrite forallb_forall in Hall.
  specialize (Hall 0%nat).
  assert (Hin : In 0%nat (seq 0 (List.length (n :: c :: sp)))).
  { apply in_seq. simpl. lia. }
  specialize (Hall Hin). cbn [Nat.eqb orb nth] in Hall.
  apply Z.eqb_eq. exact Hall.
Qed.

(** X15.  A constructed block returns only on inputs that fit the channel
    arithmetic of its constructor: [x] must have [2 * c] channels and the
    block's number of spatial axes, the skip connection exactly [c]
    channels and the batch size of [x], and what [center_crop] leaves of
    the skip connection must have twice the extents of [x].  On any other
    pair of feature maps [forward] raises. *)
Theorem forward_input_contract
    (conv_spatial : ConvolutionalBlock -> list Z -> Result (list Z))
    (defaults : ConvSettings) (c dimensions : Z) (upsampling_type : string)
    (normalization : option string) (preactivation residual_flag padding : bool)
    (padding_mode : string) (activation : option string) (dilation : option Z)
    (self : DecodingBlock)
    (n_s c_s : Z) (sp_s : list Z) (n_x c_x : Z) (sp_x : list Z) (y : list Z) :
  DecodingBlock_init defaults c dimensions upsampling_type normalization
    preactivation residual_flag padding padding_mode activation dilation = Ok self ->
  List.length sp_s = List.length sp_x ->
  @DecodingBlock_forward _ (ShapeTorch conv_spatial) self
    (n_s :: c_s :: sp_s) (n_x :: c_x :: sp_x) = Ok y ->
  c_x = 2 * c
  /\ c_s = c
  /\ n_s = n_x
  /\ List.length sp_x = Z.to_nat dimensions
  /\ mirrored_crop sp_s (map (fun e => 2 * e) sp_x) = map (fun e => 2 * e) sp_x.
Proof.
  intros Hinit Hlen Hrun.
  pose proof (DecodingBlock_init_Ok_conv _ _ _ _ _ _ _ _ _ _ _ Hinit) as ->.
  rewrite DecodingBlock_init_conv_cases in Hinit.
  destruct ((1 <=? dimensions) && (dimensions <=? 3)); [| discriminate Hinit].
  destruct (0 <=? c); [| discriminate Hinit].
  injection Hinit as <-.
  apply DecodingBlock_forward_returns in Hrun.
  destruct Hrun as [concat [main [Hconcat [Hmain _]]]].
  unfold spec_concat in Hconcat.
  destruct (@upsample_call _ (ShapeTorch conv_spatial)
              (upsample (conv_mode_block defaults c dimensions normalization
                           preactivation residual_flag padding padding_mode
                           activation dilation)) (n_x :: c_x :: sp_x))
    as [upsampled | e] eqn:Hup; [| discriminate Hconcat].
  cbn [upsample conv_mode_block upsample_call conv_transpose_call ShapeTorch]
    in Hup.
  apply conv_transpose_shape_Ok in Hup.
  destruct Hup as [n0 [sp0 [Hx [Hrank [_ [_ ->]]]]]].
  cbn [ct_spatial_dims ct_in_channels ct_out_channels ct_stride ct_kernel_size]
    in Hx, Hrank, Hconcat.
  assert (Hn0 : n0 = n_x) by congruence.
  assert (Hcx : c_x = 2 * c) by congruence.
  assert (Hsp0 : sp0 = sp_x) by congruence.
  subst n0 c_x sp0. clear Hx.
  cbn [bind] in Hconcat. rewrite doubled_extents in Hconcat.
  assert (Hlen' : List.length sp_s = List.length (map (fun e => 2 * e) sp_x))
    by (rewrite length_map; exact Hlen).
  destruct (@center_crop _ (ShapeTorch conv_spatial) (n_s :: c_s :: sp_s)
              (n_x :: 2 * c :: map (fun e => 2 * e) sp_x))
    as [cropped | e] eqn:Hcrop; [| discriminate Hconcat].
  rewrite center_crop_shape in Hcrop by exact Hlen'.
  inv_bind Hcrop. injection Hcrop as <-. rename v into new_dims.
  assert (Hnew : new_dims = mirrored_crop sp_s (map (fun e => 2 * e) sp_x)).
  { unfold mirrored_crop. eapply mapM_Ok_unique; [| exact Hv].
    intros i b' _ Hpad. apply pad_axis_Ok in Hpad. cbv beta. lia. }
  change (@torch_cat _ (ShapeTorch conv_spatial)) with cat_shape in Hconcat.
  rewrite cat_shape_feature_maps in Hconcat.
  destruct (same_except 1 (n_s :: c_s :: new_dims)
              (n_x :: 2 * c :: map (fun e => 2 * e) sp_x)) eqn:Hsame;
    [| discriminate Hconcat].
  assert (Hcc : concat = n_s :: c_s + 2 * c :: new_dims) by congruence.
  subst concat. clear Hconcat.
  (* the first block takes [3 * c] channels *)
  unfold spec_main_path in Hmain.
  destruct (@conv_block_call _ (ShapeTorch conv_spatial)
              (conv1 (conv_mode_block defaults c dimensions normalization
                        preactivation residual_flag padding padding_mode
                        activation dilation))
              (n_s :: c_s + 2 * c :: new_dims)) as [a | e] eqn:Hconv1;
    [| discriminate Hmain].
  cbn [conv_block_call ShapeTorch] in Hconv1.
  apply conv_block_shape_Ok in Hconv1. destruct Hconv1 as [Hin _].
  cbn [nth conv1 conv_mode_block cb_in_channels ConvolutionalBlock_init] in Hin.
  split; [reflexivity |]. split; [lia |].
  split; [exact (@same_except_batch _ _ _ _ _ _ Hsame) |].
  split; [exact Hrank |].
  rewrite <- Hnew.
  apply nth_ext with (d := 0) (d' := 0).
  - destruct (mapM_Ok_nth _ _ Hv) as [Hl _].
    rewrite Hl, length_seq. exact Hlen'.
  - intros i Hi. apply (@same_except_spatial _ _ _ _ _ _ i Hsame). exact Hi.
Qed.

Lemma forward_input_contract_witness :
  8 = 2 * 4 /\ 4 = 4 /\ 1 = 1
  /\ List.length [5; 4] = Z.to_nat 2
  /\ mirrored_crop [14; 12] (map (fun e => 2 * e) [5; 4])
     = map (fun e => 2 * e) [5; 4].
Proof.
  exact (@forward_input_contract same_spatial example_defaults 4 2 "conv" None
           true true true "zeros" None None _ 1 4 [14; 12] 1 8 [5; 4]
           [1; 4; 10; 8] eq_refl eq_refl eq_refl).
Defined.
